(** * Phenomena: the report lifecycle of the data-access layer

    A shallow embedding of the database module of the Phenomena backend
    (the functions [getOpenReports], [createReport], [_getReport],
    [closeReport] and [createReportComment]) and the properties of the
    report lifecycle: who may close a report, when a comment is accepted,
    and how the expiration date moves.

    The module talks to PostgreSQL through one shared [client]; every
    [await client.query(text, params)] is an event of the program, answered
    by an engine.  The programs are written once, against any engine; the
    relational tables and the statements' meaning on them are the engine
    [pg].  *)

From stdpp Require Import base decidable option list gmap strings.
From Stdlib Require Import ZArith Lia.

Local Open Scope Z_scope.

(** ** Rows and objects *)

(** A row of the table [reports]. *)
Module Report.
Record t : Type := mk
  { id : Z;
    title : string;
    location : string;
    description : string;
    password : string;
    isOpen : bool;
    expirationDate : Z }.

Definition close (r : t) : t :=
  mk (id r) (title r) (location r) (description r) (password r) false
     (expirationDate r).

Definition expire_at (d : Z) (r : t) : t :=
  mk (id r) (title r) (location r) (description r) (password r) (isOpen r) d.
End Report.

(** A row of the table [comments]. *)
Module Comment.
(** Modelled from the spec: the schema of [comments], which is not part of
    the module, has the columns id, reportId, content and createdAt. *)
Record t : Type := mk
  { id : Z;
    reportId : Z;
    content : string;
    createdAt : Z }.
End Comment.

(** The JavaScript object a report row becomes once [getOpenReports] or
    [createReport] has worked on it: a property that was deleted or never
    set is [None]. *)
Module ReportObject.
Record t : Type := mk
  { id : Z;
    title : string;
    location : string;
    description : string;
    password : option string;
    isOpen : bool;
    expirationDate : Z;
    comments : option (list Comment.t);
    isExpired : option bool }.

(** The object pg builds for a row: every column, nothing else. *)
Definition of_row (r : Report.t) : t :=
  mk (Report.id r) (Report.title r) (Report.location r)
     (Report.description r) (Some (Report.password r)) (Report.isOpen r)
     (Report.expirationDate r) None None.

Definition set_comments (cs : list Comment.t) (o : t) : t :=
  mk (id o) (title o) (location o) (description o) (password o) (isOpen o)
     (expirationDate o) (Some cs) (isExpired o).

Definition set_isExpired (b : bool) (o : t) : t :=
  mk (id o) (title o) (location o) (description o) (password o) (isOpen o)
     (expirationDate o) (comments o) (Some b).

Definition delete_password (o : t) : t :=
  mk (id o) (title o) (location o) (description o) None (isOpen o)
     (expirationDate o) (comments o) (isExpired o).
End ReportObject.

(** What [closeReport] returns. *)
Record CloseAck : Type := { message : string }.

(** A thrown value: an [Error] made by the module, or a rejection of the
    store. *)
Inductive Error : Type :=
| JsError (msg : string)
| PgError (msg : string).

(** ** Statements *)

(** The seven statements the module sends.  The text of the comment lookup
    depends on the data: its IN list holds the placeholders [$1 .. $n], kept
    here as the list of their numbers, next to the bound parameters. *)
Inductive Statement : Type :=
| SelectOpenReports
| SelectCommentsIn (placeholders : list nat) (params : list Z)
| InsertReport (title location description password : string)
| SelectReportById (reportId : Z)
| UpdateIsOpenFalse (reportId : Z)
| InsertComment (reportId : Z) (content : string)
| UpdateExpirationDate (reportId : Z).

Definition row_type (q : Statement) : Type :=
  match q with
  | SelectCommentsIn _ _ | InsertComment _ _ => Comment.t
  | _ => Report.t
  end.

(** The result object of pg: the rows returned and the number of rows the
    statement touched. *)
Record QueryResult (Row : Type) : Type :=
  { rows : list Row; rowCount : nat }.
Arguments rows {Row} _.
Arguments rowCount {Row} _.

Definition Answer (q : Statement) : Type := Error + QueryResult (row_type q).

(** ** Programs *)

(** An async function of the module: it returns, throws, awaits a query or
    reads the clock. *)
Inductive Prog (A : Type) : Type :=
| Return (a : A)
| Throw (e : Error)
| Await (q : Statement) (k : Answer q -> Prog A)
| DateNow (k : Z -> Prog A).
Arguments Return {A} a.
Arguments Throw {A} e.
Arguments Await {A} q k.
Arguments DateNow {A} k.

Fixpoint bind {A B : Type} (p : Prog A) (f : A -> Prog B) : Prog B :=
  match p with
  | Return a => f a
  | Throw e => Throw e
  | Await q k => Await q (fun r => bind (k r) f)
  | DateNow k => DateNow (fun t => bind (k t) f)
  end.

#[global] Instance Prog_ret : MRet Prog := @Return.
#[global] Instance Prog_bind : MBind Prog := fun A B f p => bind p f.

(** [try { p } catch (error) { h error }] *)
Fixpoint try_catch {A : Type} (p : Prog A) (h : Error -> Prog A) : Prog A :=
  match p with
  | Return a => Return a
  | Throw e => h e
  | Await q k => Await q (fun r => try_catch (k r) h)
  | DateNow k => DateNow (fun t => try_catch (k t) h)
  end.

(** [await client.query(q)]: a rejection is thrown where it is awaited. *)
Definition client_query (q : Statement) : Prog (QueryResult (row_type q)) :=
  Await q (fun r => match r with inl e => Throw e | inr res => Return res end).

(** [Date.now()], and [new Date()] where it is compared as a number. *)
Definition Date_now : Prog Z := DateNow Return.

(** [xs.forEach(f)] for a callback that replaces each element. *)
Fixpoint forEach {A B : Type} (f : A -> Prog B) (xs : list A) : Prog (list B) :=
  match xs with
  | [] => Return []
  | x :: xs' => y ← f x; ys ← forEach f xs'; Return (y :: ys)
  end.

(** Instants are milliseconds of the epoch.  pg hands a timestamp over as
    a Date; [Date.parse] takes a string, so the Date is first printed by
    [toString], which has no milliseconds, and then read back: what comes
    out is the instant with its milliseconds dropped. *)
Definition Date_parse (t : Z) : Z := t / 1000 * 1000.
Arguments Date_parse : simpl never.

(** ** The module *)

(** [reportIds.map((_, i) => `$${i + 1}`)] *)
Definition placeholders_for (reportIds : list Z) : list nat :=
  imap (fun i _ => S i) reportIds.

(** The callback that files one comment under its report in
    [commentsByReportId]: the sequence is created when the key is new, then
    the comment is pushed (the key is there by then). *)
Definition push_comment (m : gmap Z (list Comment.t)) (comment : Comment.t)
  : gmap Z (list Comment.t) :=
  let m1 :=
    match m !! Comment.reportId comment with
    | Some _ => m
    | None => <[Comment.reportId comment := []]> m
    end in
  match m1 !! Comment.reportId comment with
  | Some cs => <[Comment.reportId comment := cs ++ [comment]]> m1
  | None => m1
  end.

(** The open reports, each with its comments and its [isExpired] flag and
    without its password. *)
Definition getOpenReports : Prog (list ReportObject.t) :=
  try_catch
    (reportsResult ← client_query SelectOpenReports;
     let reports := ReportObject.of_row <$> rows reportsResult in
     let reportIds := ReportObject.id <$> reports in
     let commentsQuery :=
       SelectCommentsIn (placeholders_for reportIds) reportIds in
     commentsResult ← client_query commentsQuery;
     let commentsByReportId :=
       foldl push_comment (∅ : gmap Z (list Comment.t)) (rows commentsResult) in
     forEach
       (fun report =>
          now ← Date_now;
          Return
            (ReportObject.delete_password
               (ReportObject.set_isExpired
                  (bool_decide (Date_parse (ReportObject.expirationDate report) < now))
                  (ReportObject.set_comments
                     (default [] (commentsByReportId !! ReportObject.id report))
                     report))))
       reports)
    Throw.

(** [delete newReport.password] throws a TypeError when the store returned
    no row. *)
Definition createReport (title location description password : string)
  : Prog ReportObject.t :=
  try_catch
    (result ← client_query (InsertReport title location description password);
     match ReportObject.of_row <$> head (rows result) with
     | None =>
       Throw (JsError "Cannot convert undefined or null to object")
     | Some newReport => Return (ReportObject.delete_password newReport)
     end)
    Throw.

(** The first row with that id, password included; [undefined] (here
    [None]) when there is none. *)
Definition _getReport (reportId : Z) : Prog (option Report.t) :=
  try_catch
    (result ← client_query (SelectReportById reportId);
     Return (head (rows result)))
    Throw.

(** [!==] on two strings is their inequality. *)
Definition closeReport (reportId : Z) (password : string) : Prog CloseAck :=
  try_catch
    (report ← _getReport reportId;
     match report with
     | None => Throw (JsError "Report does not exist with that id")
     | Some report =>
       if negb (bool_decide (Report.password report = password)) then
         Throw (JsError "Password incorrect for this report, please try again")
       else if negb (Report.isOpen report) then
         Throw (JsError "This report has already been closed")
       else
         result ← client_query (UpdateIsOpenFalse reportId);
         if bool_decide (rowCount result = 0%nat) then
           Throw (JsError "Report not updated")
         else
           Return {| message := "Report successfully closed!" |}
     end)
    Throw.

(** The comment returned is the first row of the insertion, [undefined]
    (here [None]) if the store returned none. *)
Definition createReportComment (reportId : Z) (content : string)
  : Prog (option Comment.t) :=
  try_catch
    (report ← _getReport reportId;
     match report with
     | None =>
       Throw (JsError "That report does not exist, no comment has been made")
     | Some report =>
       if negb (Report.isOpen report) then
         Throw (JsError "That report has been closed, no comment has been made")
       else
         now ← Date_now;
         if bool_decide (Date_parse (Report.expirationDate report) < now) then
           Throw (JsError
             "The discussion time on this report has expired, no comment has been made")
         else
           inserted ← client_query (InsertComment reportId content);
           let newComment := head (rows inserted) in
           _ ← client_query (UpdateExpirationDate reportId);
           Return newComment
     end)
    Throw.

(** ** The store *)

(** The two tables in insertion order, and the next value of each id
    sequence. *)
Record Store : Type :=
  { reports : list Report.t;
    comments : list Comment.t;
    reports_id_seq : Z;
    comments_id_seq : Z }.

Definition empty_store : Store :=
  {| reports := []; comments := []; reports_id_seq := 1; comments_id_seq := 1 |}.

(** [interval '1 day'], in milliseconds. *)
Definition one_day : Z := 86400000.

(** An engine answers a statement at an instant of its clock and leaves
    the store as the statement made it. *)
Record Engine : Type :=
  { exec : forall q : Statement, Z -> Store -> Answer q * Store }.

Definition selected {Row : Type} (rs : list Row) : QueryResult Row :=
  {| rows := rs; rowCount := length rs |}.

Definition updated {Row : Type} (n : nat) : QueryResult Row :=
  {| rows := []; rowCount := n |}.

(** The value bound to each placeholder: [$i] is the i-th parameter,
    counted from one. *)
Definition bound_values (placeholders : list nat) (params : list Z)
  : option (list Z) :=
  mapM (fun i => match i with O => None | S j => params !! j end) placeholders.

Definition update_where (reportId : Z) (f : Report.t -> Report.t)
  (rs : list Report.t) : list Report.t :=
  (fun r => if bool_decide (Report.id r = reportId) then f r else r) <$> rs.

Definition matching (reportId : Z) (rs : list Report.t) : list Report.t :=
  filter (fun r => Report.id r = reportId) rs.

(** The comment lookup.  PostgreSQL refuses an empty IN list as a syntax
    error, and a placeholder that no parameter is bound to. *)
Definition select_comments_in (placeholders : list nat) (params : list Z)
  (cs : list Comment.t) : Error + QueryResult Comment.t :=
  match placeholders with
  | [] => inl (PgError "syntax error at or near )")
  | _ :: _ =>
    match bound_values placeholders params with
    | None => inl (PgError "there is no parameter of that number")
    | Some ids => inr (selected (filter (fun c => Comment.reportId c ∈ ids) cs))
    end
  end.

Definition with_reports (rs : list Report.t) (s : Store) : Store :=
  {| reports := rs;
     comments := comments s;
     reports_id_seq := reports_id_seq s;
     comments_id_seq := comments_id_seq s |}.

(** Modelled from the spec: the column defaults of [reports], whose schema
    is not part of the module, are [isOpen] true and [expirationDate] one
    day after the insertion.  The rest is PostgreSQL on the two tables: an
    id comes from the sequence of its table, a lookup or an update by id
    goes over every row of that id, and an update reports how many rows it
    touched. *)
Definition pg_exec (q : Statement) (now : Z) (s : Store) : Answer q * Store :=
  match q return Answer q * Store with
  | SelectOpenReports =>
    (inr (selected (filter (fun r => Report.isOpen r = true) (reports s))), s)
  | SelectCommentsIn placeholders params =>
    (select_comments_in placeholders params (comments s), s)
  | InsertReport title location description password =>
    let row :=
      Report.mk (reports_id_seq s) title location description password true
                (now + one_day) in
    (inr (selected [row]),
     {| reports := reports s ++ [row];
        comments := comments s;
        reports_id_seq := reports_id_seq s + 1;
        comments_id_seq := comments_id_seq s |})
  | SelectReportById reportId =>
    (inr (selected (matching reportId (reports s))), s)
  | UpdateIsOpenFalse reportId =>
    (inr (updated (length (matching reportId (reports s)))),
     with_reports (update_where reportId Report.close (reports s)) s)
  | InsertComment reportId content =>
    let row := Comment.mk (comments_id_seq s) reportId content now in
    (inr (selected [row]),
     {| reports := reports s;
        comments := comments s ++ [row];
        reports_id_seq := reports_id_seq s;
        comments_id_seq := comments_id_seq s + 1 |})
  | UpdateExpirationDate reportId =>
    (inr (updated (length (matching reportId (reports s)))),
     with_reports
       (update_where reportId (Report.expire_at (now + one_day)) (reports s)) s)
  end.

Definition pg : Engine := {| exec := pg_exec |}.

(** ** Running a program *)

(** How a call ended: what it returned or threw, the store it left, and the
    statements it sent, in order. *)
Record Outcome (A : Type) : Type :=
  { result : Error + A; store : Store; trace : list Statement }.
Arguments result {A} _.
Arguments store {A} _.
Arguments trace {A} _.

Definition sent {A : Type} (q : Statement) (o : Outcome A) : Outcome A :=
  {| result := result o; store := store o; trace := q :: trace o |}.

(** One call of an async function, run to its end at the instant [now]
    against the engine [e]. *)
Fixpoint run {A : Type} (e : Engine) (now : Z) (p : Prog A) (s : Store)
  : Outcome A :=
  match p with
  | Return a => {| result := inr a; store := s; trace := [] |}
  | Throw err => {| result := inl err; store := s; trace := [] |}
  | Await q k =>
    let '(answer, s') := exec e q now s in sent q (run e now (k answer) s')
  | DateNow k => run e now (k now) s
  end.

(** The row [_getReport] finds in the store: the first one with that id. *)
Definition find_report (reportId : Z) (s : Store) : option Report.t :=
  head (matching reportId (reports s)).

(** An engine on which another session works on the store between the
    checks of a call and its update. *)
Definition is_update (q : Statement) : bool :=
  match q with
  | UpdateIsOpenFalse _ | UpdateExpirationDate _ => true
  | _ => false
  end.

Definition racing (other : Store -> Store) (e : Engine) : Engine :=
  {| exec := fun q now s => exec e q now (if is_update q then other s else s) |}.

(** Another session that deletes every report. *)
Definition drop_reports (s : Store) : Store := with_reports [] s.

(** The outcome of a call that threw after its first statement. *)
Definition refused {A : Type} (msg : string) (reportId : Z) (s : Store)
  : Outcome A :=
  {| result := inl (JsError msg);
     store := s;
     trace := [SelectReportById reportId] |}.


(** What the read path makes of one open row: the row without its
    password, with the comments that name it, in insertion order, and with
    the flag [isExpired] as the loop computes it. *)
Definition listed (now : Z) (s : Store) (r : Report.t) : ReportObject.t :=
  {| ReportObject.id := Report.id r;
     ReportObject.title := Report.title r;
     ReportObject.location := Report.location r;
     ReportObject.description := Report.description r;
     ReportObject.password := None;
     ReportObject.isOpen := Report.isOpen r;
     ReportObject.expirationDate := Report.expirationDate r;
     ReportObject.comments :=
       Some (filter (fun c => Comment.reportId c = Report.id r) (comments s));
     ReportObject.isExpired :=
       Some (bool_decide (Date_parse (Report.expirationDate r) < now)) |}.

Definition open_reports (s : Store) : list Report.t :=
  filter (fun r => Report.isOpen r = true) (reports s).

(** The store after the first two steps of the scenario of the board: a
    report is filed at instant 1000 and commented at instant 2000. *)
Definition leak_store : Store :=
  store (run pg 1000 (createReport "Leak" "5th Ave" "Gas smell" "p1") empty_store).

Definition commented_store : Store :=
  store (run pg 2000 (createReportComment 1 "confirmed") leak_store).

(** A report filed in the middle of a second: its expiration date,
    86401500, has milliseconds. *)
Definition subsecond_store : Store :=
  store (run pg 1500 (createReport "Leak" "5th Ave" "Gas smell" "p1") empty_store).

(** A second report, which nobody has commented. *)
Definition board_store : Store :=
  store (run pg 3000 (createReport "Noise" "Main St" "Loud hum" "p2") commented_store).

(** The acknowledgment of a close. *)
Definition closed_ack : CloseAck := {| message := "Report successfully closed!" |}.

(** ** Histories *)

(** The calls the request layer makes. *)
Inductive Call : Type :=
| GetOpenReports
| CreateReport (title location description password : string)
| CloseReport (reportId : Z) (password : string)
| CreateReportComment (reportId : Z) (content : string).

(** The store a call leaves, made at the instant [now]. *)
Definition after (now : Z) (c : Call) (s : Store) : Store :=
  match c with
  | GetOpenReports => store (run pg now getOpenReports s)
  | CreateReport title location description password =>
    store (run pg now (createReport title location description password) s)
  | CloseReport reportId password =>
    store (run pg now (closeReport reportId password) s)
  | CreateReportComment reportId content =>
    store (run pg now (createReportComment reportId content) s)
  end.

(** [reachable t s]: the store [s] is what a sequence of calls, made one
    after the other at instants that never go back, has built from the
    empty tables by the instant [t]. *)
Inductive reachable : Z -> Store -> Prop :=
| reachable_empty (t : Z) : reachable t empty_store
| reachable_call (t t' : Z) (c : Call) (s : Store) :
    reachable t s -> t <= t' -> reachable t' (after t' c s).

(** The primary key of [reports]. *)
Definition unique_ids (s : Store) : Prop := NoDup (Report.id <$> reports s).

(** The row an accepted comment becomes, and the store it leaves: the row
    is appended to [comments], then the expiration date of the report is
    set. *)
Definition new_comment (now : Z) (reportId : Z) (content : string) (s : Store)
  : Comment.t :=
  Comment.mk (comments_id_seq s) reportId content now.

Definition commented (now : Z) (reportId : Z) (content : string) (s : Store)
  : Store :=
  with_reports
    (update_where reportId (Report.expire_at (now + one_day)) (reports s))
    {| reports := reports s;
       comments := comments s ++ [new_comment now reportId content s];
       reports_id_seq := reports_id_seq s;
       comments_id_seq := comments_id_seq s + 1 |}.

(** [mentions fragment msg]: the message contains the fragment. *)
Definition mentions (fragment msg : string) : Prop :=
  exists before after : string, msg = before +:+ fragment +:+ after.

(** The stores the write paths leave. *)
Definition new_report (now : Z) (title location description password : string)
  (s : Store) : Report.t :=
  Report.mk (reports_id_seq s) title location description password true
            (now + one_day).

Definition filed (now : Z) (title location description password : string)
  (s : Store) : Store :=
  {| reports := reports s ++ [new_report now title location description password s];
     comments := comments s;
     reports_id_seq := reports_id_seq s + 1;
     comments_id_seq := comments_id_seq s |}.

Definition closed (reportId : Z) (s : Store) : Store :=
  with_reports (update_where reportId Report.close (reports s)) s.

(** The lifecycle as a step relation: what a call made at the instant
    [now] can do to the store.  A read, and a call that is refused, leave
    it alone. *)
Inductive transition (now : Z) (s : Store) : Call -> Store -> Prop :=
| transition_none (c : Call) :
    transition now s c s
| transition_filed (title location description password : string) :
    transition now s (CreateReport title location description password)
               (filed now title location description password s)
| transition_closed (reportId : Z) (password : string) (report : Report.t) :
    find_report reportId s = Some report ->
    Report.password report = password ->
    Report.isOpen report = true ->
    transition now s (CloseReport reportId password) (closed reportId s)
| transition_commented (reportId : Z) (content : string) (report : Report.t) :
    find_report reportId s = Some report ->
    Report.isOpen report = true ->
    now <= Report.expirationDate report ->
    transition now s (CreateReportComment reportId content)
               (commented now reportId content s).

(** What every reachable store satisfies at the instant [t]: ids are
    unique and below the next value of the sequence, and no expiration date
    lies more than a day ahead. *)
Definition well_kept (t : Z) (s : Store) : Prop :=
  unique_ids s
  /\ Forall (fun r => Report.id r < reports_id_seq s) (reports s)
  /\ Forall (fun r => Report.expirationDate r <= t + one_day) (reports s).

(** ** Beyond the lifecycle *)

(** The statements that only read. *)
Definition is_select (q : Statement) : bool :=
  match q with
  | SelectOpenReports | SelectCommentsIn _ _ | SelectReportById _ => true
  | _ => false
  end.

Definition is_expiration_update (q : Statement) : bool :=
  match q with
  | UpdateExpirationDate _ => true
  | _ => false
  end.

(** An engine that rejects the statements [fails] picks and leaves the
    store alone when it does. *)
Definition rejecting (fails : Statement -> bool) (err : Error) (e : Engine)
  : Engine :=
  {| exec := fun q now s => if fails q then (inl err, s) else exec e q now s |}.

(** What the loop of [getOpenReports] makes of a row, given the comment
    rows the second query returned. *)
Definition augmented (now : Z) (cs : list Comment.t) (r : Report.t)
  : ReportObject.t :=
  {| ReportObject.id := Report.id r;
     ReportObject.title := Report.title r;
     ReportObject.location := Report.location r;
     ReportObject.description := Report.description r;
     ReportObject.password := None;
     ReportObject.isOpen := Report.isOpen r;
     ReportObject.expirationDate := Report.expirationDate r;
     ReportObject.comments :=
       Some (filter (fun c => Comment.reportId c = Report.id r) cs);
     ReportObject.isExpired :=
       Some (bool_decide (Date_parse (Report.expirationDate r) < now)) |}.

(** Two rows that differ at most in [isOpen] and [expirationDate]. *)
Definition same_identity (r r' : Report.t) : Prop :=
  Report.id r' = Report.id r
  /\ Report.title r' = Report.title r
  /\ Report.location r' = Report.location r
  /\ Report.description r' = Report.description r
  /\ Report.password r' = Report.password r.

(** ** Laws of [run] *)

Section Run.
Context {A : Type} (e : Engine) (now : Z).

(** Catching an error only to throw it again changes nothing. *)
Lemma run_try_rethrow (p : Prog A) (s : Store) :
  run e now (try_catch p Throw) s = run e now p s.
Proof.
  revert s. induction p as [a|err|q k IH|k IH]; intros s; simpl; try done.
  destruct (exec e q now s) as [answer s']. by rewrite IH.
Qed.

Lemma run_bind {B : Type} (p : Prog A) (f : A -> Prog B) (s : Store) :
  run e now (bind p f) s =
  match result (run e now p s) with
  | inl err =>
    {| result := inl err;
       store := store (run e now p s);
       trace := trace (run e now p s) |}
  | inr a =>
    {| result := result (run e now (f a) (store (run e now p s)));
       store := store (run e now (f a) (store (run e now p s)));
       trace := trace (run e now p s)
                ++ trace (run e now (f a) (store (run e now p s))) |}
  end.
Proof.
  revert s. induction p as [a|err|q k IH|k IH]; intros s; simpl.
  - by destruct (run e now (f a) s).
  - done.
  - destruct (exec e q now s) as [answer s']. rewrite IH. simpl.
    by destruct (result (run e now (k answer) s')).
  - apply IH.
Qed.
End Run.

Lemma run_client_query (e : Engine) (now : Z) (q : Statement) (s : Store) :
  run e now (client_query q) s =
  {| result := (exec e q now s).1; store := (exec e q now s).2; trace := [q] |}.
Proof.
  unfold client_query. simpl.
  by destruct (exec e q now s) as [[err|res] s'].
Qed.

(** Awaiting a query and going on with its result. *)
Lemma run_query_bind {B : Type} (e : Engine) (now : Z) (q : Statement)
    (f : QueryResult (row_type q) -> Prog B) (s : Store) :
  run e now (bind (client_query q) f) s =
  match (exec e q now s).1 with
  | inl err => {| result := inl err; store := (exec e q now s).2; trace := [q] |}
  | inr res => sent q (run e now (f res) (exec e q now s).2)
  end.
Proof. simpl. by destruct (exec e q now s) as [[err|res] s']. Qed.

Lemma run__getReport (e : Engine) (now : Z) (reportId : Z) (s : Store) :
  run e now (_getReport reportId) s =
  {| result :=
       match (exec e (SelectReportById reportId) now s).1 with
       | inl err => inl err
       | inr found => inr (head (rows found))
       end;
     store := (exec e (SelectReportById reportId) now s).2;
     trace := [SelectReportById reportId] |}.
Proof.
  unfold _getReport. rewrite run_try_rethrow. simpl.
  by destruct (exec e (SelectReportById reportId) now s) as [[err|res] s'].
Qed.

(** On [pg], [_getReport] reads the store and leaves it as it is. *)
Lemma run_pg__getReport (now : Z) (reportId : Z) (s : Store) :
  run pg now (_getReport reportId) s =
  {| result := inr (find_report reportId s);
     store := s;
     trace := [SelectReportById reportId] |}.
Proof. by rewrite run__getReport. Qed.

(** ** getOpenReports *)

Lemma filter_none {A : Type} (P : A -> Prop) `{!forall x, Decision (P x)}
    (l : list A) :
  (forall x, x ∈ l -> ¬ P x) -> filter P l = [].
Proof.
  intros Hnone. destruct (filter P l) as [|x xs] eqn:Hf; [done|].
  assert (x ∈ filter P l) as [HP Hx]%list_elem_of_filter
    by (rewrite Hf; left).
  by destruct (Hnone x).
Qed.

(** The i-th placeholder is bound to the i-th id. *)
Lemma bound_values_placeholders (ids : list Z) :
  bound_values (placeholders_for ids) ids = Some ids.
Proof.
  apply mapM_Some_2, Forall2_same_length_lookup_2.
  - unfold placeholders_for. by rewrite length_imap.
  - intros i n x Hn Hx. unfold placeholders_for in Hn.
    rewrite list_lookup_imap, Hx in Hn. by simplify_eq/=.
Qed.

Lemma placeholders_nil (ids : list Z) :
  placeholders_for ids = [] <-> ids = [].
Proof. by destruct ids. Qed.

(** The lookup for a non-empty sequence of ids returns the comments that
    name one of them. *)
Lemma select_comments_in_ids (ids : list Z) (cs : list Comment.t) :
  ids ≠ [] ->
  select_comments_in (placeholders_for ids) ids cs =
  inr (selected (filter (fun c => Comment.reportId c ∈ ids) cs)).
Proof.
  intros Hids. unfold select_comments_in.
  rewrite bound_values_placeholders.
  destruct (placeholders_for ids) eqn:Hph; [|done].
  by apply placeholders_nil in Hph.
Qed.

(** Filing a comment appends it to the sequence of its report and touches
    no other sequence. *)
Lemma push_comment_lookup (m : gmap Z (list Comment.t)) (c : Comment.t) (k : Z) :
  default [] (push_comment m c !! k) =
  default [] (m !! k) ++ (if decide (Comment.reportId c = k) then [c] else []).
Proof.
  unfold push_comment.
  destruct (m !! Comment.reportId c) as [cs|] eqn:Hm; simpl.
  - rewrite Hm. destruct (decide (Comment.reportId c = k)) as [<-|Hne].
    + by rewrite lookup_insert_eq, Hm.
    + by rewrite lookup_insert_ne, app_nil_r.
  - rewrite lookup_insert_eq. destruct (decide (Comment.reportId c = k)) as [<-|Hne].
    + by rewrite lookup_insert_eq, Hm.
    + by rewrite !lookup_insert_ne, app_nil_r.
Qed.

Lemma commentsByReportId_lookup (cs : list Comment.t)
    (m : gmap Z (list Comment.t)) (k : Z) :
  default [] (foldl push_comment m cs !! k) =
  default [] (m !! k) ++ filter (fun c => Comment.reportId c = k) cs.
Proof.
  revert m. induction cs as [|c cs IH]; intros m; simpl.
  - by rewrite app_nil_r.
  - rewrite IH, push_comment_lookup, filter_cons, <- app_assoc.
    by destruct (decide (Comment.reportId c = k)).
Qed.

(** A [forEach] whose callback only reads the clock sends nothing. *)
Lemma run_forEach_pure {A B : Type} (e : Engine) (now : Z) (g : Z -> A -> B)
    (xs : list A) (s : Store) :
  run e now (forEach (fun x => t ← Date_now; Return (g t x)) xs) s =
  {| result := inr (g now <$> xs); store := s; trace := [] |}.
Proof.
  induction xs as [|x xs IH]; [done|].
  simpl in *. unfold mbind, Prog_bind.
  by rewrite run_bind, IH.
Qed.

(** With no open report the IN list of the comment lookup is empty, the
    store refuses the statement and the call throws. *)
Lemma getOpenReports_none_open (now : Z) (s : Store) :
  open_reports s = [] ->
  run pg now getOpenReports s =
  {| result := inl (PgError "syntax error at or near )");
     store := s;
     trace := [SelectOpenReports; SelectCommentsIn [] []] |}.
Proof.
  intros Hnone. unfold getOpenReports. rewrite run_try_rethrow. simpl.
  fold (open_reports s). by rewrite Hnone.
Qed.

(** With an open report the call returns what the contract lists for each
    open row, in the order of the table. *)
Lemma getOpenReports_some_open (now : Z) (s : Store) :
  open_reports s ≠ [] ->
  run pg now getOpenReports s =
  {| result := inr (listed now s <$> open_reports s);
     store := s;
     trace :=
       [SelectOpenReports;
        SelectCommentsIn (placeholders_for (Report.id <$> open_reports s))
                         (Report.id <$> open_reports s)] |}.
Proof.
  intros Hsome. unfold getOpenReports. rewrite run_try_rethrow.
  unfold mbind, Prog_bind.
  rewrite (run_query_bind pg now SelectOpenReports).
  cbn beta zeta iota delta [exec pg pg_exec fst snd rows selected].
  fold (open_reports s). rewrite <- list_fmap_compose.
  change (ReportObject.id ∘ ReportObject.of_row) with Report.id.
  set (ids := Report.id <$> open_reports s).
  rewrite (run_query_bind pg now (SelectCommentsIn (placeholders_for ids) ids)).
  cbn beta zeta iota delta [exec pg pg_exec fst snd rows selected].
  rewrite select_comments_in_ids
    by (subst ids; intros H%fmap_nil_inv; done).
  cbn beta zeta iota delta [rows selected].
  set (byId := foldl push_comment ∅ _).
  change (run pg now (forEach ?f ?xs) s) with
    (run pg now (forEach (fun x => t ← Date_now;
       Return ((fun t report => ReportObject.delete_password
               (ReportObject.set_isExpired
                  (bool_decide (Date_parse (ReportObject.expirationDate report) < t))
                  (ReportObject.set_comments
                     (default [] (byId !! ReportObject.id report)) report))) t x)) xs) s).
  rewrite run_forEach_pure. simpl. unfold sent. simpl. f_equal. f_equal.
  rewrite <- list_fmap_compose. apply list_fmap_ext.
  intros i r Hr. simpl. unfold listed, ReportObject.delete_password. simpl.
  f_equal. f_equal. subst byId.
  rewrite commentsByReportId_lookup, lookup_empty. simpl.
  apply list_filter_filter_l. intros c ->. subst ids.
  apply list_elem_of_fmap. exists r. split; [done|].
  by eapply list_elem_of_lookup_2.
Qed.

(** Whatever the engine is, when the first statement returns no row the
    module still sends the comment lookup, over no id at all. *)
Lemma getOpenReports_sends_empty_lookup (e : Engine) (now : Z) (s s1 : Store)
    (found : QueryResult Report.t) :
  exec e SelectOpenReports now s = (inr found, s1) ->
  rows found = [] ->
  trace (run e now getOpenReports s) =
  [SelectOpenReports; SelectCommentsIn [] []].
Proof.
  intros Hsel Hrows. unfold getOpenReports. rewrite run_try_rethrow.
  unfold mbind, Prog_bind. rewrite (run_query_bind e now SelectOpenReports).
  rewrite Hsel. cbn beta zeta iota delta [fst snd]. rewrite Hrows.
  cbn [fmap list_fmap placeholders_for imap].
  rewrite (run_query_bind e now (SelectCommentsIn [] [])).
  by destruct (exec e (SelectCommentsIn [] []) now s1) as [[err|res] s2].
Qed.

(** C1. On a board with no open report [getOpenReports] does not return
    the empty sequence: it sends the comment lookup with an empty IN list,
    PostgreSQL refuses the statement and the call throws. *)
Theorem getOpenReports_empty_board (now : Z) :
  run pg now getOpenReports empty_store =
  {| result := inl (PgError "syntax error at or near )");
     store := empty_store;
     trace := [SelectOpenReports; SelectCommentsIn [] []] |}.
Proof. by apply getOpenReports_none_open. Qed.

(** [Date.parse] drops the milliseconds and nothing more. *)
Lemma Date_parse_le (t : Z) : Date_parse t <= t.
Proof.
  unfold Date_parse. pose proof (Z.mul_div_le t 1000 ltac:(lia)). lia.
Qed.

Lemma Date_parse_gt (t : Z) : t - 1000 < Date_parse t.
Proof.
  unfold Date_parse. pose proof (Z.mul_succ_div_gt t 1000 ltac:(lia)). lia.
Qed.

(** Whenever [getOpenReports] returns, every object it returns is open,
    has no password, carries the flag [isExpired] as the loop computes it
    and carries as [comments] the sequence of the comments whose [reportId]
    is its id (the empty sequence, not an absent property, when there is
    none).  It does return as soon as one report is open. *)
Lemma getOpenReports_objects (now : Z) (s : Store) :
  (open_reports s ≠ [] ->
   exists objs, result (run pg now getOpenReports s) = inr objs)
  /\ (forall objs,
       result (run pg now getOpenReports s) = inr objs ->
       Forall
         (fun o =>
            ReportObject.isOpen o = true
            /\ ReportObject.password o = None
            /\ ReportObject.isExpired o
               = Some (bool_decide
                         (Date_parse (ReportObject.expirationDate o) < now))
            /\ ReportObject.comments o
               = Some (filter (fun c => Comment.reportId c = ReportObject.id o)
                              (comments s))
            /\ ((forall c, c ∈ comments s ->
                           Comment.reportId c ≠ ReportObject.id o) ->
                ReportObject.comments o = Some []))
         objs).
Proof.
  split.
  - intros Hsome. rewrite getOpenReports_some_open by done. by eexists.
  - intros objs Hobjs.
    destruct (decide (open_reports s = [])) as [Hnone|Hsome].
    { by rewrite getOpenReports_none_open in Hobjs. }
    rewrite getOpenReports_some_open in Hobjs by done. simpl in Hobjs.
    injection Hobjs as <-.
    apply Forall_fmap, Forall_forall. intros r Hr. simpl.
    apply list_elem_of_filter in Hr as [Hopen _].
    repeat split; [done|].
    intros Hnone. f_equal. apply filter_none. intros c Hc. by apply Hnone.
Qed.

(** C2. [getOpenReports] does not compute [isExpired] as
    expirationDate < now: for a report that expires at 86401500 and is
    listed at 86401200, three tenths of a second before, the object returned
    has [isExpired] true, because [Date.parse] has dropped the milliseconds
    of the expiration date. *)
Theorem getOpenReports_isExpired_early :
  exists obj,
    result (run pg 86401200 getOpenReports subsecond_store) = inr [obj]
    /\ ReportObject.expirationDate obj = 86401500
    /\ ¬ (ReportObject.expirationDate obj < 86401200)
    /\ ReportObject.isExpired obj = Some true.
Proof.
  eexists. split; [vm_compute; reflexivity|].
  cbn [ReportObject.expirationDate ReportObject.isExpired].
  repeat split. lia.
Qed.

(** ** closeReport *)

(** The call on any engine, statement by statement. *)
Lemma run_closeReport (e : Engine) (now : Z) (reportId : Z) (password : string)
    (s : Store) :
  run e now (closeReport reportId password) s =
  match exec e (SelectReportById reportId) now s with
  | (inl err, s1) =>
    {| result := inl err; store := s1; trace := [SelectReportById reportId] |}
  | (inr found, s1) =>
    match head (rows found) with
    | None => refused "Report does not exist with that id" reportId s1
    | Some report =>
      if bool_decide (Report.password report = password) then
        if Report.isOpen report then
          match exec e (UpdateIsOpenFalse reportId) now s1 with
          | (inl err, s2) =>
            {| result := inl err;
               store := s2;
               trace := [SelectReportById reportId; UpdateIsOpenFalse reportId] |}
          | (inr upd, s2) =>
            {| result :=
                 if bool_decide (rowCount upd = 0%nat)
                 then inl (JsError "Report not updated")
                 else inr closed_ack;
               store := s2;
               trace := [SelectReportById reportId; UpdateIsOpenFalse reportId] |}
          end
        else refused "This report has already been closed" reportId s1
      else
        refused "Password incorrect for this report, please try again"
                reportId s1
    end
  end.
Proof.
  unfold closeReport. rewrite run_try_rethrow.
  unfold mbind, Prog_bind. rewrite run_bind, run__getReport.
  destruct (exec e (SelectReportById reportId) now s) as [[err|found] s1];
    [done|].
  cbn [fst snd result store trace].
  destruct (head (rows found)) as [report|]; [|done].
  destruct (bool_decide (Report.password report = password)); [|done].
  destruct (Report.isOpen report); [|done].
  cbn [negb]. rewrite run_query_bind.
  destruct (exec e (UpdateIsOpenFalse reportId) now s1) as [[err|upd] s2];
    [done|].
  cbn [fst snd]. by destruct (bool_decide (rowCount upd = 0%nat)).
Qed.

(** A row that is found is a row the update touches. *)
Lemma find_report_matching (reportId : Z) (s : Store) (report : Report.t) :
  find_report reportId s = Some report ->
  length (matching reportId (reports s)) ≠ 0%nat.
Proof. unfold find_report. by destruct (matching reportId (reports s)). Qed.

Lemma find_report_id (reportId : Z) (s : Store) (report : Report.t) :
  find_report reportId s = Some report -> Report.id report = reportId.
Proof.
  intros Hfind. apply head_Some_elem_of in Hfind.
  by apply list_elem_of_filter in Hfind as [? _].
Qed.

(** The call on [pg]. *)
Lemma run_pg_closeReport (now : Z) (reportId : Z) (password : string) (s : Store) :
  run pg now (closeReport reportId password) s =
  match find_report reportId s with
  | None => refused "Report does not exist with that id" reportId s
  | Some report =>
    if bool_decide (Report.password report = password) then
      if Report.isOpen report then
        {| result :=
             if bool_decide (length (matching reportId (reports s)) = 0%nat)
             then inl (JsError "Report not updated")
             else inr closed_ack;
           store := with_reports (update_where reportId Report.close (reports s)) s;
           trace := [SelectReportById reportId; UpdateIsOpenFalse reportId] |}
      else refused "This report has already been closed" reportId s
    else
      refused "Password incorrect for this report, please try again" reportId s
  end.
Proof. by rewrite run_closeReport. Qed.

(** On [pg]: the three refusals, and the close of an open report. *)
Lemma closeReport_not_found (now : Z) (s : Store) (reportId : Z) (password : string) :
  find_report reportId s = None ->
  run pg now (closeReport reportId password) s
  = refused "Report does not exist with that id" reportId s.
Proof.
  intros Hnone. rewrite run_pg_closeReport.
  by rewrite Hnone.
Qed.

Lemma closeReport_password_incorrect (now : Z) (s : Store) (reportId : Z)
    (password : string) (report : Report.t) :
  find_report reportId s = Some report ->
  Report.password report ≠ password ->
  run pg now (closeReport reportId password) s
  = refused "Password incorrect for this report, please try again" reportId s.
Proof.
  intros Hsome Hpw. rewrite run_pg_closeReport.
  by rewrite Hsome, bool_decide_eq_false_2.
Qed.

Lemma closeReport_already_closed (now : Z) (s : Store) (reportId : Z)
    (password : string) (report : Report.t) :
  find_report reportId s = Some report ->
  Report.password report = password ->
  Report.isOpen report = false ->
  run pg now (closeReport reportId password) s
  = refused "This report has already been closed" reportId s.
Proof.
  intros Hsome Hpw Hclosed. rewrite run_pg_closeReport.
  by rewrite Hsome, bool_decide_eq_true_2, Hclosed.
Qed.

Lemma closeReport_closes (now : Z) (s : Store) (reportId : Z)
    (password : string) (report : Report.t) :
  find_report reportId s = Some report ->
  Report.password report = password ->
  Report.isOpen report = true ->
  run pg now (closeReport reportId password) s =
  {| result := inr closed_ack;
     store := with_reports (update_where reportId Report.close (reports s)) s;
     trace := [SelectReportById reportId; UpdateIsOpenFalse reportId] |}.
Proof.
  intros Hsome Hpw Hopen. rewrite run_pg_closeReport.
  rewrite Hsome, bool_decide_eq_true_2, Hopen by done.
  by rewrite bool_decide_eq_false_2 by by eapply find_report_matching.
Qed.

(** C3. [closeReport] checks, in this order, that the report exists, that
    the password is the stored one and that the report is open; the first
    check that fails ends the call with its own message, after the single
    lookup and with the store untouched.  A call for an id that names no
    report ends with the first message whatever the password is. *)
Theorem closeReport_guards (now : Z) (s : Store) (reportId : Z) (password : string) :
  (find_report reportId s = None ->
   run pg now (closeReport reportId password) s
   = refused "Report does not exist with that id" reportId s)
  /\ (forall report,
       find_report reportId s = Some report ->
       Report.password report ≠ password ->
       run pg now (closeReport reportId password) s
       = refused "Password incorrect for this report, please try again"
                 reportId s)
  /\ (forall report,
       find_report reportId s = Some report ->
       Report.password report = password ->
       Report.isOpen report = false ->
       run pg now (closeReport reportId password) s
       = refused "This report has already been closed" reportId s).
Proof.
  split; [|split].
  - apply closeReport_not_found.
  - apply closeReport_password_incorrect.
  - apply closeReport_already_closed.
Qed.

Lemma closeReport_guards_witness :
  run pg 0 (closeReport 7 "anything") empty_store
  = refused "Report does not exist with that id" 7 empty_store.
Proof.
  apply (closeReport_guards 0 empty_store 7 "anything"). reflexivity.
Defined.

(** C4. Once the three checks have passed, [closeReport] sends the update
    that sets [isOpen] to false, by id.  When the store reports that no row
    was touched the call throws its own error; when a row was touched it
    returns the acknowledgment, which carries the message and no report. *)
Theorem closeReport_update (e : Engine) (now : Z) (s s1 s2 : Store)
    (reportId : Z) (password : string)
    (found upd : QueryResult Report.t) (report : Report.t) :
  exec e (SelectReportById reportId) now s = (inr found, s1) ->
  head (rows found) = Some report ->
  Report.password report = password ->
  Report.isOpen report = true ->
  exec e (UpdateIsOpenFalse reportId) now s1 = (inr upd, s2) ->
  run e now (closeReport reportId password) s =
  {| result :=
       if bool_decide (rowCount upd = 0%nat)
       then inl (JsError "Report not updated")
       else inr {| message := "Report successfully closed!" |};
     store := s2;
     trace := [SelectReportById reportId; UpdateIsOpenFalse reportId] |}.
Proof.
  intros Hsel Hfound Hpw Hopen Hupd.
  rewrite run_closeReport, Hsel. cbn beta iota delta [row_type].
  rewrite Hfound, bool_decide_eq_true_2, Hopen, Hupd by done.
  by destruct (bool_decide (rowCount upd = 0%nat)).
Qed.

Lemma closeReport_update_witness :
  run pg 3000 (closeReport 1 "p1") leak_store =
  {| result := inr {| message := "Report successfully closed!" |};
     store := with_reports (update_where 1 Report.close (reports leak_store))
                           leak_store;
     trace := [SelectReportById 1; UpdateIsOpenFalse 1] |}.
Proof.
  exact (closeReport_update pg 3000 leak_store leak_store _ 1 "p1" _ _ _
           eq_refl eq_refl eq_refl eq_refl eq_refl).
Defined.

(** The error of C4 at work: another session deletes the row between the
    checks and the update. *)
Example closeReport_row_gone :
  result (run (racing drop_reports pg) 3000 (closeReport 1 "p1") leak_store)
  = inl (JsError "Report not updated").
Proof. reflexivity. Qed.

(** The update names the row by its id alone: when another session closes
    the report between the checks and the update, the update still touches
    the row and the call returns the acknowledgment. *)
Example closeReport_closed_meanwhile :
  result (run (racing (after 3000 (CloseReport 1 "p1")) pg) 3000
              (closeReport 1 "p1") leak_store)
  = inr closed_ack.
Proof. reflexivity. Qed.

(** C5. A close with a password that is not the stored one fails and
    leaves the store as it was; the report is still what it was, open or
    closed. *)
Theorem closeReport_wrong_password (now : Z) (s : Store) (reportId : Z)
    (password : string) (report : Report.t) :
  find_report reportId s = Some report ->
  Report.password report ≠ password ->
  result (run pg now (closeReport reportId password) s)
  = inl (JsError "Password incorrect for this report, please try again")
  /\ store (run pg now (closeReport reportId password) s) = s
  /\ find_report reportId (store (run pg now (closeReport reportId password) s))
     = Some report.
Proof.
  intros Hsome Hpw.
  by rewrite (closeReport_password_incorrect now s reportId password report).
Qed.

Lemma closeReport_wrong_password_witness :
  store (run pg 3000 (closeReport 1 "p2") leak_store) = leak_store.
Proof.
  refine (proj1 (proj2 (closeReport_wrong_password 3000 leak_store 1 "p2"
            (Report.mk 1 "Leak" "5th Ave" "Gas smell" "p1" true 86401000) _ _))).
  - reflexivity.
  - discriminate.
Defined.

(** ** createReportComment *)

(** The call on [pg]. *)
Lemma run_pg_createReportComment (now : Z) (reportId : Z) (content : string)
    (s : Store) :
  run pg now (createReportComment reportId content) s =
  match find_report reportId s with
  | None =>
    refused "That report does not exist, no comment has been made" reportId s
  | Some report =>
    if Report.isOpen report then
      if bool_decide (Date_parse (Report.expirationDate report) < now) then
        refused
          "The discussion time on this report has expired, no comment has been made"
          reportId s
      else
        {| result := inr (Some (new_comment now reportId content s));
           store := commented now reportId content s;
           trace := [SelectReportById reportId;
                     InsertComment reportId content;
                     UpdateExpirationDate reportId] |}
    else
      refused "That report has been closed, no comment has been made" reportId s
  end.
Proof.
  unfold createReportComment. rewrite run_try_rethrow.
  unfold mbind, Prog_bind. rewrite run_bind, run_pg__getReport.
  cbn [result store trace].
  destruct (find_report reportId s) as [report|]; [|done].
  destruct (Report.isOpen report); [|done].
  cbn [negb bind Date_now run].
  by destruct (bool_decide (Date_parse (Report.expirationDate report) < now)).
Qed.

(** An update by id rewrites the rows of that id and no other row, as long
    as it keeps the id. *)
Section UpdateWhere.
Context (f : Report.t -> Report.t).
Hypothesis f_id : forall r, Report.id (f r) = Report.id r.

Lemma update_where_ids (reportId : Z) (rs : list Report.t) :
  Report.id <$> update_where reportId f rs = Report.id <$> rs.
Proof.
  unfold update_where. rewrite <- list_fmap_compose.
  apply list_fmap_ext. intros i r _. simpl. by case_bool_decide.
Qed.

Lemma matching_update_where (reportId : Z) (rs : list Report.t) :
  matching reportId (update_where reportId f rs) = f <$> matching reportId rs.
Proof.
  unfold matching, update_where.
  induction rs as [|r rs IH]; [done|].
  rewrite fmap_cons, !filter_cons.
  case_bool_decide as Hr.
  - rewrite !decide_True by (by rewrite ?f_id). by rewrite fmap_cons, IH.
  - by rewrite !decide_False.
Qed.

Lemma matching_update_where_ne (reportId reportId' : Z) (rs : list Report.t) :
  reportId' ≠ reportId ->
  matching reportId' (update_where reportId f rs) = matching reportId' rs.
Proof.
  intros Hne. unfold matching, update_where.
  induction rs as [|r rs IH]; [done|].
  rewrite fmap_cons, !filter_cons.
  case_bool_decide as Hr.
  - rewrite !decide_False by (rewrite ?f_id; congruence). done.
  - destruct (decide (Report.id r = reportId')); by rewrite IH.
Qed.

Lemma list_lookup_update_where (reportId : Z) (rs : list Report.t) (i : nat) :
  update_where reportId f rs !! i
  = (fun r => if bool_decide (Report.id r = reportId) then f r else r)
      <$> rs !! i.
Proof. unfold update_where. apply list_lookup_fmap. Qed.
End UpdateWhere.

(** [createReportComment] checks, in this order, that the report exists,
    that it is open and that its expiration date, read through
    [Date.parse], is not before the current instant, and refuses with a
    message of its own at each check.  A report whose expiration date has
    passed is always refused; an open report takes the comment exactly when
    the current instant is not after the expiration date with its
    milliseconds dropped.  A call that fails has sent the lookup only: no
    comment row is inserted and no report is changed. *)
Lemma createReportComment_checks (now : Z) (s : Store) (reportId : Z)
    (content : string) :
  (find_report reportId s = None ->
   run pg now (createReportComment reportId content) s
   = refused "That report does not exist, no comment has been made" reportId s)
  /\ (forall report,
       find_report reportId s = Some report ->
       Report.isOpen report = false ->
       run pg now (createReportComment reportId content) s
       = refused "That report has been closed, no comment has been made"
                 reportId s)
  /\ (forall report,
       find_report reportId s = Some report ->
       Report.isOpen report = true ->
       Report.expirationDate report < now ->
       run pg now (createReportComment reportId content) s
       = refused
           "The discussion time on this report has expired, no comment has been made"
           reportId s)
  /\ (forall report,
       find_report reportId s = Some report ->
       Report.isOpen report = true ->
       ((exists c, result (run pg now (createReportComment reportId content) s)
                   = inr c)
        <-> now <= Date_parse (Report.expirationDate report)))
  /\ (forall err,
       result (run pg now (createReportComment reportId content) s) = inl err ->
       store (run pg now (createReportComment reportId content) s) = s
       /\ trace (run pg now (createReportComment reportId content) s)
          = [SelectReportById reportId])
  /\ mentions "report has been closed"
              "That report has been closed, no comment has been made".
Proof.
  rewrite run_pg_createReportComment.
  split; [by intros ->|].
  split; [intros report -> Hclosed; by rewrite Hclosed|].
  split.
  { intros report -> Hopen Hexp. rewrite Hopen, bool_decide_eq_true_2; [done|].
    pose proof (Date_parse_le (Report.expirationDate report)). lia. }
  split; [|split].
  - intros report -> ->. split.
    + intros [c Hc]. case_bool_decide; [done|lia].
    + intros Hnow. rewrite bool_decide_eq_false_2 by lia. by eexists.
  - intros err.
    destruct (find_report reportId s) as [report|]; [|done].
    destruct (Report.isOpen report); [|done]. by case_bool_decide.
  - by exists "That ", ", no comment has been made".
Qed.

(** C7. [createReportComment] does not take a comment exactly when
    expirationDate >= now: on an open report that expires at 86401500, a
    comment made at 86401200, three tenths of a second before, is refused as
    expired and nothing is written, because [Date.parse] has dropped the
    milliseconds of the expiration date. *)
Theorem createReportComment_refused_early :
  exists report,
    find_report 1 subsecond_store = Some report
    /\ Report.isOpen report = true
    /\ 86401200 <= Report.expirationDate report
    /\ run pg 86401200 (createReportComment 1 "in time") subsecond_store
       = refused
           "The discussion time on this report has expired, no comment has been made"
           1 subsecond_store.
Proof.
  exists (Report.mk 1 "Leak" "5th Ave" "Gas smell" "p1" true 86401500).
  split; [reflexivity|]. split; [reflexivity|].
  split; [cbn [Report.expirationDate]; lia|].
  vm_compute. reflexivity.
Qed.

Lemma find_report_commented (now : Z) (reportId : Z) (content : string)
    (s : Store) :
  find_report reportId (commented now reportId content s)
  = Report.expire_at (now + one_day) <$> find_report reportId s.
Proof.
  unfold find_report, commented, with_reports. cbn [reports].
  rewrite matching_update_where by done.
  by destruct (matching reportId (reports s)).
Qed.

Lemma find_report_commented_ne (now : Z) (reportId reportId' : Z)
    (content : string) (s : Store) :
  reportId' ≠ reportId ->
  find_report reportId' (commented now reportId content s)
  = find_report reportId' s.
Proof.
  intros Hne. unfold find_report, commented, with_reports. cbn [reports].
  by rewrite matching_update_where_ne.
Qed.

(** C8. A comment that passes the checks (the report is found, it is open,
    and the current instant is not after what [Date.parse] reads from its
    expiration date) is inserted as one new row with
    the given [reportId] and content; a second statement then sets the
    expiration date of the report to now + 1 day, whatever it was before,
    and touches no other report; the call returns the inserted row. *)
Theorem createReportComment_accepted (now : Z) (s : Store) (reportId : Z)
    (content : string) (report : Report.t) :
  find_report reportId s = Some report ->
  Report.isOpen report = true ->
  now <= Date_parse (Report.expirationDate report) ->
  let o := run pg now (createReportComment reportId content) s in
  let c := new_comment now reportId content s in
  result o = inr (Some c)
  /\ Comment.reportId c = reportId
  /\ Comment.content c = content
  /\ comments (store o) = comments s ++ [c]
  /\ trace o = [SelectReportById reportId;
                InsertComment reportId content;
                UpdateExpirationDate reportId]
  /\ find_report reportId (store o)
     = Some (Report.expire_at (now + one_day) report)
  /\ Report.expirationDate <$> find_report reportId (store o)
     = Some (now + one_day)
  /\ (forall reportId', reportId' ≠ reportId ->
        find_report reportId' (store o) = find_report reportId' s).
Proof.
  intros Hsome Hopen Hnow o c. subst o c.
  rewrite run_pg_createReportComment, Hsome, Hopen.
  rewrite bool_decide_eq_false_2 by lia. cbn [result store trace].
  rewrite find_report_commented, Hsome.
  repeat split; try done.
  intros reportId' Hne. by apply find_report_commented_ne.
Qed.

Lemma createReportComment_accepted_witness :
  result (run pg 2000 (createReportComment 1 "confirmed") leak_store)
  = inr (Some (Comment.mk 1 1 "confirmed" 2000))
  /\ Report.expirationDate
       <$> find_report 1 (store (run pg 2000 (createReportComment 1 "confirmed")
                                      leak_store))
     = Some (2000 + one_day).
Proof.
  destruct (createReportComment_accepted 2000 leak_store 1 "confirmed"
              (Report.mk 1 "Leak" "5th Ave" "Gas smell" "p1" true 86401000))
    as (Hres & _ & _ & _ & _ & _ & Hexp & _).
  - reflexivity.
  - reflexivity.
  - vm_compute. discriminate.
  - split; [exact Hres|exact Hexp].
Defined.

(** ** Histories *)

Lemma run_pg_createReport (now : Z) (title location description password : string)
    (s : Store) :
  store (run pg now (createReport title location description password) s)
  = filed now title location description password s.
Proof. reflexivity. Qed.

Lemma run_pg_getOpenReports_store (now : Z) (s : Store) :
  store (run pg now getOpenReports s) = s.
Proof.
  destruct (decide (open_reports s = [])) as [Hnone|Hsome].
  - by rewrite getOpenReports_none_open.
  - by rewrite getOpenReports_some_open.
Qed.

(** Every call is a step of the lifecycle. *)
Lemma after_transition (now : Z) (c : Call) (s : Store) :
  transition now s c (after now c s).
Proof.
  destruct c as [|title location description password|reportId password
                 |reportId content]; unfold after.
  - rewrite run_pg_getOpenReports_store. constructor.
  - rewrite run_pg_createReport. constructor.
  - rewrite run_pg_closeReport.
    destruct (find_report reportId s) as [report|] eqn:Hfind;
      [|by constructor].
    case_bool_decide as Hpw; [|by constructor].
    destruct (Report.isOpen report) eqn:Hopen; [|by constructor].
    by apply (transition_closed now s reportId password report).
  - rewrite run_pg_createReportComment.
    destruct (find_report reportId s) as [report|] eqn:Hfind;
      [|by constructor].
    destruct (Report.isOpen report) eqn:Hopen; [|by constructor].
    case_bool_decide as Hexp; [by constructor|].
    apply (transition_commented now s reportId content report); [done..|].
    pose proof (Date_parse_le (Report.expirationDate report)). lia.
Qed.

Lemma Forall_update_where (P : Report.t -> Prop) (f : Report.t -> Report.t)
    (reportId : Z) (rs : list Report.t) :
  (forall r, P r -> P (f r)) ->
  Forall P rs -> Forall P (update_where reportId f rs).
Proof.
  intros Hf HP. unfold update_where. apply Forall_fmap.
  eapply Forall_impl; [exact HP|]. intros r Hr. simpl.
  case_bool_decide; auto.
Qed.

(** A step keeps the store well kept, at any later instant. *)
Lemma transition_well_kept (t t' : Z) (c : Call) (s s' : Store) :
  t <= t' -> well_kept t s -> transition t' s c s' -> well_kept t' s'.
Proof.
  intros Ht (Huniq & Hseq & Hexp) Hstep.
  assert (Forall (fun r => Report.expirationDate r <= t' + one_day) (reports s))
    as Hexp' by (eapply Forall_impl; [exact Hexp|]; simpl; intros; lia).
  destruct Hstep as [c|title location description password
                     |reportId password report _ _ _
                     |reportId content report _ _ _].
  - done.
  - unfold well_kept, unique_ids, filed. cbn [reports reports_id_seq].
    split; [|split].
    + rewrite fmap_app. apply NoDup_app. split; [done|]. split.
      * intros x Hx [->|[]%elem_of_nil]%elem_of_cons. simpl in Hx.
        apply list_elem_of_fmap in Hx as (r & Hid & Hr).
        rewrite Forall_forall in Hseq. specialize (Hseq r Hr). lia.
      * apply NoDup_singleton.
    + apply Forall_app. split.
      * eapply Forall_impl; [exact Hseq|]. simpl. intros; lia.
      * apply Forall_singleton. simpl. lia.
    + apply Forall_app. split; [done|]. apply Forall_singleton. simpl. lia.
  - unfold well_kept, unique_ids, closed, with_reports.
    cbn [reports reports_id_seq]. rewrite update_where_ids by done.
    split; [done|]. split; by apply Forall_update_where.
  - unfold well_kept, unique_ids, commented, with_reports.
    cbn [reports reports_id_seq]. rewrite update_where_ids by done.
    split; [done|]. split; by apply Forall_update_where.
Qed.

Lemma reachable_well_kept (t : Z) (s : Store) :
  reachable t s -> well_kept t s.
Proof.
  induction 1 as [t|t t' c s _ IH Ht].
  - repeat split; [apply NoDup_nil_2|apply Forall_nil_2..].
  - eapply transition_well_kept; [exact Ht|exact IH|apply after_transition].
Qed.

(** Under the primary key a row is the only row of its id. *)
Lemma matching_unique (rs : list Report.t) (r : Report.t) :
  NoDup (Report.id <$> rs) -> r ∈ rs -> matching (Report.id r) rs = [r].
Proof.
  unfold matching. induction rs as [|r0 rs IH]; intros Hnd Hr.
  - by apply elem_of_nil in Hr.
  - rewrite fmap_cons in Hnd. apply NoDup_cons in Hnd as [Hr0 Hnd].
    rewrite filter_cons. apply elem_of_cons in Hr as [->|Hr].
    + rewrite decide_True by done. f_equal. apply filter_none.
      intros x Hx Hid. apply Hr0. rewrite <- Hid.
      by apply list_elem_of_fmap_2.
    + rewrite decide_False; [by apply IH|].
      intros Hid. apply Hr0. rewrite Hid. by apply list_elem_of_fmap_2.
Qed.

(** A step keeps every row in its place, with its id and its password; it
    never reopens a row, and it changes an expiration date only when a
    comment on that report is accepted, to one day after the call. *)
Lemma transition_row (t : Z) (c : Call) (s s' : Store) (i : nat) (r : Report.t) :
  transition t s c s' ->
  reports s !! i = Some r ->
  exists r',
    reports s' !! i = Some r'
    /\ Report.id r' = Report.id r
    /\ Report.password r' = Report.password r
    /\ (Report.isOpen r = false -> Report.isOpen r' = false)
    /\ (Report.expirationDate r' = Report.expirationDate r
        \/ (Report.expirationDate r' = t + one_day
            /\ exists content report,
                 c = CreateReportComment (Report.id r) content
                 /\ find_report (Report.id r) s = Some report
                 /\ t <= Report.expirationDate report)).
Proof.
  intros Hstep Hr.
  destruct Hstep as [c|title location description password
                     |reportId password report _ _ _
                     |reportId content report Hfind _ Hexp].
  - exists r. by repeat split; auto.
  - exists r. cbn [filed reports]. rewrite lookup_app_l
      by (by eapply lookup_lt_Some). by repeat split; auto.
  - cbn [closed with_reports reports].
    rewrite list_lookup_update_where, Hr. cbn [fmap option_fmap option_map].
    case_bool_decide; eexists; (split; [done|]); by repeat split; auto.
  - cbn [commented with_reports reports].
    rewrite list_lookup_update_where, Hr. cbn [fmap option_fmap option_map].
    case_bool_decide as Hid; eexists; (split; [done|]);
      repeat split; auto.
    right. split; [done|]. exists content, report. by rewrite Hid.
Qed.

Lemma find_report_closed (reportId : Z) (s : Store) :
  find_report reportId (closed reportId s)
  = Report.close <$> find_report reportId s.
Proof.
  unfold find_report, closed, with_reports. cbn [reports].
  rewrite matching_update_where by done.
  by destruct (matching reportId (reports s)).
Qed.

(** C6. Two closes in a row with the stored password: the first one
    succeeds and the second one fails because the report is closed already.
    No call reopens a closed report. *)
Theorem closeReport_twice (now now' : Z) (s : Store) (reportId : Z)
    (password : string) (report : Report.t) :
  find_report reportId s = Some report ->
  Report.password report = password ->
  Report.isOpen report = true ->
  let o := run pg now (closeReport reportId password) s in
  result o = inr closed_ack
  /\ run pg now' (closeReport reportId password) (store o)
     = refused "This report has already been closed" reportId (store o)
  /\ (forall (t : Z) (c : Call) (s0 : Store) (i : nat) (r : Report.t),
        reports s0 !! i = Some r ->
        Report.isOpen r = false ->
        exists r',
          reports (after t c s0) !! i = Some r'
          /\ Report.id r' = Report.id r
          /\ Report.isOpen r' = false).
Proof.
  intros Hsome Hpw Hopen o. subst o.
  rewrite (closeReport_closes now s reportId password report) by done.
  cbn [result store]. split; [done|]. split.
  - apply (closeReport_already_closed now' _ reportId password
             (Report.close report)); [|done..].
    fold (closed reportId s). by rewrite find_report_closed, Hsome.
  - intros t c s0 i r Hr Hclosed.
    destruct (transition_row t c s0 (after t c s0) i r)
      as (r' & Hr' & Hid & _ & Hstays & _);
      [apply after_transition|done|].
    exists r'. auto.
Qed.

Lemma closeReport_twice_witness :
  result (run pg 3000 (closeReport 1 "p1") leak_store) = inr closed_ack
  /\ result (run pg 4000 (closeReport 1 "p1")
                 (store (run pg 3000 (closeReport 1 "p1") leak_store)))
     = inl (JsError "This report has already been closed").
Proof.
  destruct (closeReport_twice 3000 4000 leak_store 1 "p1"
              (Report.mk 1 "Leak" "5th Ave" "Gas smell" "p1" true 86401000)
              eq_refl eq_refl eq_refl) as (Hfirst & Hsecond & _).
  split; [exact Hfirst|]. rewrite Hsecond. reflexivity.
Defined.

Lemma find_report_lookup (s : Store) (i : nat) (r : Report.t) :
  unique_ids s -> reports s !! i = Some r ->
  find_report (Report.id r) s = Some r.
Proof.
  intros Huniq Hr. unfold find_report.
  rewrite matching_unique; [done|done|]. by eapply list_elem_of_lookup_2.
Qed.

(** The scenario of the board to its end: once the report is closed a
    late comment is refused, and nothing is written. *)
Example late_comment_refused :
  run pg 4000 (createReportComment 1 "late") (closed 1 commented_store)
  = refused "That report has been closed, no comment has been made" 1
            (closed 1 commented_store).
Proof. reflexivity. Qed.

(** C9. Along a history that starts from the empty tables, where a new
    report expires one day after its creation and the clock never goes
    back, no call moves the expiration date of a report backwards.  The
    date is written only by an accepted comment on that report, which finds
    it at or after the current instant and sets it to now + 1 day. *)
Theorem expirationDate_moves_forward (t t' : Z) (c : Call) (s : Store)
    (i : nat) (r : Report.t) :
  reachable t s ->
  t <= t' ->
  reports s !! i = Some r ->
  exists r',
    reports (after t' c s) !! i = Some r'
    /\ Report.id r' = Report.id r
    /\ Report.expirationDate r <= Report.expirationDate r'
    /\ (Report.expirationDate r' = Report.expirationDate r
        \/ (Report.expirationDate r' = t' + one_day
            /\ t' <= Report.expirationDate r
            /\ exists content, c = CreateReportComment (Report.id r) content)).
Proof.
  intros Hreach Ht Hr.
  apply reachable_well_kept in Hreach as (Huniq & _ & Hexp).
  rewrite Forall_lookup in Hexp. specialize (Hexp i r Hr). simpl in Hexp.
  destruct (transition_row t' c s (after t' c s) i r)
    as (r' & Hr' & Hid & _ & _ & [Hsame|(Hset & content & report & -> & Hfind & Hguard)]);
    [apply after_transition|done|..].
  - exists r'. repeat split; auto. lia.
  - rewrite (find_report_lookup s i r) in Hfind by done.
    injection Hfind as <-.
    exists r'. repeat split; auto; [lia|]. right. repeat split; eauto.
Qed.

Lemma reachable_leak_store : reachable 1000 leak_store.
Proof.
  exact (reachable_call 0 1000 (CreateReport "Leak" "5th Ave" "Gas smell" "p1")
           empty_store (reachable_empty 0) ltac:(lia)).
Qed.

Lemma expirationDate_moves_forward_witness :
  exists r',
    reports (after 2000 (CreateReportComment 1 "confirmed") leak_store) !! 0%nat
    = Some r'
    /\ 1000 + one_day <= Report.expirationDate r'.
Proof.
  destruct (expirationDate_moves_forward 1000 2000
              (CreateReportComment 1 "confirmed") leak_store 0
              (Report.mk 1 "Leak" "5th Ave" "Gas smell" "p1" true 86401000))
    as (r' & Hr' & _ & Hle & _).
  - apply reachable_leak_store.
  - lia.
  - reflexivity.
  - exists r'. split; [exact Hr'|exact Hle].
Defined.

(** C10. In a history of calls made one after the other, the update of
    [closeReport] names the row by its id alone and an id names one row:
    once the lookup has found the report the update touches exactly one
    row, so the call never ends with the error for an update that touched
    nothing, and every close of an open report with its password succeeds. *)
Theorem closeReport_always_updates (t now : Z) (s : Store) (reportId : Z)
    (password : string) :
  reachable t s ->
  result (run pg now (closeReport reportId password) s)
  ≠ inl (JsError "Report not updated")
  /\ (forall report,
        find_report reportId s = Some report ->
        (exec pg (UpdateIsOpenFalse reportId) now s).1 = inr (updated 1)
        /\ (Report.password report = password ->
            Report.isOpen report = true ->
            result (run pg now (closeReport reportId password) s)
            = inr closed_ack)).
Proof.
  intros Hreach. apply reachable_well_kept in Hreach as (Huniq & _ & _).
  split.
  - rewrite run_pg_closeReport.
    destruct (find_report reportId s) as [report|] eqn:Hfind; [|done].
    case_bool_decide; [|done].
    destruct (Report.isOpen report); [|done]. cbn [result].
    by rewrite bool_decide_eq_false_2 by by eapply find_report_matching.
  - intros report Hfind. split.
    + cbn [exec pg pg_exec fst]. do 2 f_equal.
      pose proof (find_report_id _ _ _ Hfind) as <-.
      apply head_Some_elem_of in Hfind.
      apply list_elem_of_filter in Hfind as [_ Hin].
      by rewrite matching_unique.
    + intros Hpw Hopen.
      by rewrite (closeReport_closes now s reportId password report).
Qed.

Lemma closeReport_always_updates_witness :
  result (run pg 3000 (closeReport 1 "p1") leak_store)
  ≠ inl (JsError "Report not updated").
Proof.
  exact (proj1 (closeReport_always_updates 1000 3000 leak_store 1 "p1"
                  reachable_leak_store)).
Defined.

(** ** Beyond the lifecycle *)

(** [getOpenReports] on any engine, statement by statement. *)
Lemma run_getOpenReports (e : Engine) (now : Z) (s : Store) :
  run e now getOpenReports s =
  match exec e SelectOpenReports now s with
  | (inl err, s1) =>
    {| result := inl err; store := s1; trace := [SelectOpenReports] |}
  | (inr found, s1) =>
    match exec e (SelectCommentsIn
                    (placeholders_for (Report.id <$> rows found))
                    (Report.id <$> rows found)) now s1 with
    | (inl err, s2) =>
      {| result := inl err;
         store := s2;
         trace := [SelectOpenReports;
                   SelectCommentsIn
                     (placeholders_for (Report.id <$> rows found))
                     (Report.id <$> rows found)] |}
    | (inr cs, s2) =>
      {| result := inr (augmented now (rows cs) <$> rows found);
         store := s2;
         trace := [SelectOpenReports;
                   SelectCommentsIn
                     (placeholders_for (Report.id <$> rows found))
                     (Report.id <$> rows found)] |}
    end
  end.
Proof.
  unfold getOpenReports. rewrite run_try_rethrow.
  unfold mbind, Prog_bind.
  rewrite (run_query_bind e now SelectOpenReports).
  destruct (exec e SelectOpenReports now s) as [[err|found] s1]; [done|].
  cbn beta zeta iota delta [fst snd].
  change (row_type SelectOpenReports) with Report.t in *.
  rewrite <- list_fmap_compose.
  change (ReportObject.id ∘ ReportObject.of_row) with Report.id.
  set (ids := Report.id <$> rows found).
  rewrite (run_query_bind e now (SelectCommentsIn (placeholders_for ids) ids)).
  destruct (exec e (SelectCommentsIn (placeholders_for ids) ids) now s1)
    as [[err|cs] s2]; [done|].
  cbn beta zeta iota delta [fst snd row_type].
  set (byId := foldl push_comment ∅ _).
  change (run e now (forEach ?f ?xs) s2) with
    (run e now (forEach (fun x => t ← Date_now;
       Return ((fun t report => ReportObject.delete_password
               (ReportObject.set_isExpired
                  (bool_decide (Date_parse (ReportObject.expirationDate report) < t))
                  (ReportObject.set_comments
                     (default [] (byId !! ReportObject.id report)) report))) t x)) xs) s2).
  rewrite run_forEach_pure. unfold sent. cbn [result store trace].
  f_equal. f_equal. rewrite <- list_fmap_compose. apply list_fmap_ext.
  intros i r _. simpl. unfold augmented, ReportObject.delete_password. simpl.
  f_equal. f_equal. subst byId.
  by rewrite commentsByReportId_lookup, lookup_empty.
Qed.

(** [createReport] on any engine. *)
Lemma run_createReport (e : Engine) (now : Z)
    (title location description password : string) (s : Store) :
  run e now (createReport title location description password) s =
  match exec e (InsertReport title location description password) now s with
  | (inl err, s1) =>
    {| result := inl err;
       store := s1;
       trace := [InsertReport title location description password] |}
  | (inr res, s1) =>
    {| result :=
         match head (rows res) with
         | Some r => inr (ReportObject.delete_password (ReportObject.of_row r))
         | None => inl (JsError "Cannot convert undefined or null to object")
         end;
       store := s1;
       trace := [InsertReport title location description password] |}
  end.
Proof.
  unfold createReport. rewrite run_try_rethrow.
  unfold mbind, Prog_bind.
  rewrite (run_query_bind e now
             (InsertReport title location description password)).
  destruct (exec e (InsertReport title location description password) now s)
    as [[err|res] s1]; [done|].
  cbn beta zeta iota delta [fst snd].
  change (row_type (InsertReport title location description password))
    with Report.t in *.
  by destruct (head (rows res)).
Qed.

(** [createReportComment] on any engine, statement by statement. *)
Lemma run_createReportComment (e : Engine) (now : Z) (reportId : Z)
    (content : string) (s : Store) :
  run e now (createReportComment reportId content) s =
  match exec e (SelectReportById reportId) now s with
  | (inl err, s1) =>
    {| result := inl err; store := s1; trace := [SelectReportById reportId] |}
  | (inr found, s1) =>
    match head (rows found) with
    | None =>
      refused "That report does not exist, no comment has been made"
              reportId s1
    | Some report =>
      if Report.isOpen report then
        if bool_decide (Date_parse (Report.expirationDate report) < now) then
          refused
            "The discussion time on this report has expired, no comment has been made"
            reportId s1
        else
          match exec e (InsertComment reportId content) now s1 with
          | (inl err, s2) =>
            {| result := inl err;
               store := s2;
               trace := [SelectReportById reportId;
                         InsertComment reportId content] |}
          | (inr inserted, s2) =>
            match exec e (UpdateExpirationDate reportId) now s2 with
            | (inl err, s3) =>
              {| result := inl err;
                 store := s3;
                 trace := [SelectReportById reportId;
                           InsertComment reportId content;
                           UpdateExpirationDate reportId] |}
            | (inr _, s3) =>
              {| result := inr (head (rows inserted));
                 store := s3;
                 trace := [SelectReportById reportId;
                           InsertComment reportId content;
                           UpdateExpirationDate reportId] |}
            end
          end
      else
        refused "That report has been closed, no comment has been made"
                reportId s1
    end
  end.
Proof.
  unfold createReportComment. rewrite run_try_rethrow.
  unfold mbind, Prog_bind. rewrite run_bind, run__getReport.
  destruct (exec e (SelectReportById reportId) now s) as [[err|found] s1];
    [done|].
  cbn [fst snd result store trace].
  destruct (head (rows found)) as [report|]; [|done].
  destruct (Report.isOpen report); [|done].
  cbn [negb bind Date_now run].
  destruct (bool_decide (Date_parse (Report.expirationDate report) < now));
    [done|].
  rewrite (run_query_bind e now (InsertComment reportId content)).
  destruct (exec e (InsertComment reportId content) now s1)
    as [[err|inserted] s2]; [done|].
  cbn beta zeta iota delta [fst snd].
  rewrite (run_query_bind e now (UpdateExpirationDate reportId)).
  by destruct (exec e (UpdateExpirationDate reportId) now s2)
    as [[err|upd] s3].
Qed.

(** X1. No function swallows or rewrites a rejection of the store: when the
    first statement a function sends is rejected, the function throws that
    very error and sends nothing else. *)
Theorem rejection_propagates (e : Engine) (now : Z) (s s1 : Store) (err : Error) :
  (exec e SelectOpenReports now s = (inl err, s1) ->
   run e now getOpenReports s
   = {| result := inl err; store := s1; trace := [SelectOpenReports] |})
  /\ (forall title location description password,
        exec e (InsertReport title location description password) now s
        = (inl err, s1) ->
        run e now (createReport title location description password) s
        = {| result := inl err;
             store := s1;
             trace := [InsertReport title location description password] |})
  /\ (forall reportId,
        exec e (SelectReportById reportId) now s = (inl err, s1) ->
        run e now (_getReport reportId) s
        = {| result := inl err; store := s1;
             trace := [SelectReportById reportId] |}
        /\ (forall password,
              run e now (closeReport reportId password) s
              = {| result := inl err; store := s1;
                   trace := [SelectReportById reportId] |})
        /\ (forall content,
              run e now (createReportComment reportId content) s
              = {| result := inl err; store := s1;
                   trace := [SelectReportById reportId] |})).
Proof.
  split; [|split].
  - intros Hq. by rewrite run_getOpenReports, Hq.
  - intros title location description password Hq.
    by rewrite run_createReport, Hq.
  - intros reportId Hq. split; [|split].
    + by rewrite run__getReport, Hq.
    + intros password. by rewrite run_closeReport, Hq.
    + intros content. by rewrite run_createReportComment, Hq.
Qed.

Lemma rejection_propagates_witness :
  run (rejecting is_select (PgError "connection terminated") pg) 3000
      (closeReport 1 "p1") leak_store
  = {| result := inl (PgError "connection terminated");
       store := leak_store;
       trace := [SelectReportById 1] |}.
Proof.
  refine (proj1 (proj2 (proj2 (proj2
    (rejection_propagates (rejecting is_select (PgError "connection terminated") pg)
       3000 leak_store leak_store (PgError "connection terminated")))
    1 _)) "p1").
  reflexivity.
Defined.

(** X2. The two writes of a comment that passes the checks are not one
    unit: when the store rejects the update of the expiration date, the call
    throws, but the comment it inserted just before stays in the table and
    the report keeps its old expiration date. *)
Theorem createReportComment_not_atomic (now : Z) (s : Store) (reportId : Z)
    (content : string) (report : Report.t) (err : Error) :
  find_report reportId s = Some report ->
  Report.isOpen report = true ->
  now <= Date_parse (Report.expirationDate report) ->
  let o := run (rejecting is_expiration_update err pg) now
               (createReportComment reportId content) s in
  result o = inl err
  /\ comments (store o) = comments s ++ [new_comment now reportId content s]
  /\ reports (store o) = reports s.
Proof.
  intros Hfind Hopen Hnow o. subst o.
  rewrite run_createReportComment. unfold find_report in Hfind.
  simpl. rewrite Hfind, Hopen.
  by rewrite bool_decide_eq_false_2 by lia.
Qed.

Lemma createReportComment_not_atomic_witness :
  comments (store (run (rejecting is_expiration_update (PgError "deadlock detected") pg)
                       2000 (createReportComment 1 "confirmed") leak_store))
  = [Comment.mk 1 1 "confirmed" 2000].
Proof.
  destruct (createReportComment_not_atomic 2000 leak_store 1 "confirmed"
              (Report.mk 1 "Leak" "5th Ave" "Gas smell" "p1" true 86401000)
              (PgError "deadlock detected"))
    as (_ & Hcomments & _).
  - reflexivity.
  - reflexivity.
  - vm_compute. discriminate.
  - exact Hcomments.
Defined.

(** X3. [getOpenReports] only reads: whatever the engine answers, it sends
    at most two statements and both are SELECTs. *)
Theorem getOpenReports_only_reads (e : Engine) (now : Z) (s : Store) :
  Forall (fun q => is_select q = true) (trace (run e now getOpenReports s))
  /\ (length (trace (run e now getOpenReports s)) <= 2)%nat.
Proof.
  rewrite run_getOpenReports.
  destruct (exec e SelectOpenReports now s) as [[err|found] s1].
  - split; [by repeat constructor|simpl; lia].
  - destruct (exec e _ now s1) as [[err|cs] s2];
      (split; [by repeat constructor|simpl; lia]).
Qed.

(** X4. What [getOpenReports] returns is decided by the two answers alone:
    one object per row of the first answer, in its order and whatever the
    row says of [isOpen], without the password, with the comment rows of the
    second answer that carry its id, in their order, and with the expiry
    flag; comment rows of other ids are dropped. *)
Theorem getOpenReports_augments (e : Engine) (now : Z) (s s1 s2 : Store)
    (found : QueryResult Report.t) (cs : QueryResult Comment.t) :
  exec e SelectOpenReports now s = (inr found, s1) ->
  exec e (SelectCommentsIn (placeholders_for (Report.id <$> rows found))
                           (Report.id <$> rows found)) now s1
  = (inr cs, s2) ->
  result (run e now getOpenReports s)
  = inr (augmented now (rows cs) <$> rows found).
Proof.
  intros Hfound Hcs. rewrite run_getOpenReports, Hfound.
  cbn beta iota. change (row_type SelectOpenReports) with Report.t.
  by rewrite Hcs.
Qed.

Lemma getOpenReports_augments_witness :
  result (run pg 4000 getOpenReports board_store)
  = inr (augmented 4000 (comments board_store) <$> reports board_store).
Proof.
  exact (getOpenReports_augments pg 4000 board_store board_store board_store
           (selected (reports board_store)) (selected (comments board_store))
           eq_refl eq_refl).
Defined.

Lemma imap_succ_seq {A : Type} (n : nat) (l : list A) :
  imap (fun i _ => S (n + i)) l = seq (S n) (length l).
Proof.
  revert n. induction l as [|x l IH]; intros n; [done|].
  rewrite imap_cons. cbn [length seq]. f_equal; [f_equal; lia|].
  rewrite <- IH. apply imap_ext. intros i y _. simpl. f_equal. lia.
Qed.

(** X5. The text of the comment lookup fits its parameters: for n ids the
    IN list holds the placeholders $1 to $n in this order and the i-th one
    is bound to the i-th id, so for at least one id the store is asked for
    exactly the comments whose [reportId] is one of the ids. *)
Theorem comment_lookup_binds_ids (ids : list Z) :
  placeholders_for ids = seq 1 (length ids)
  /\ bound_values (placeholders_for ids) ids = Some ids
  /\ (ids ≠ [] ->
      forall cs,
        select_comments_in (placeholders_for ids) ids cs
        = inr (selected (filter (fun c => Comment.reportId c ∈ ids) cs))).
Proof.
  split; [|split].
  - unfold placeholders_for. apply (imap_succ_seq 0).
  - apply bound_values_placeholders.
  - intros Hids cs. by apply select_comments_in_ids.
Qed.

Lemma comment_lookup_binds_ids_witness :
  select_comments_in (placeholders_for [4; 9]) [4; 9]
    [Comment.mk 1 9 "a" 0; Comment.mk 2 5 "b" 0; Comment.mk 3 4 "c" 0]
  = inr (selected [Comment.mk 1 9 "a" 0; Comment.mk 3 4 "c" 0]).
Proof.
  refine (proj2 (proj2 (comment_lookup_binds_ids [4; 9])) _ _).
  discriminate.
Defined.

Lemma push_comment_lookup_key (m : gmap Z (list Comment.t)) (c : Comment.t)
    (k : Z) :
  push_comment m c !! k =
  if decide (Comment.reportId c = k)
  then Some (default [] (m !! k) ++ [c])
  else m !! k.
Proof.
  unfold push_comment.
  destruct (m !! Comment.reportId c) as [cs|] eqn:Hm; simpl.
  - rewrite Hm. destruct (decide (Comment.reportId c = k)) as [<-|Hne].
    + by rewrite lookup_insert_eq, Hm.
    + by rewrite lookup_insert_ne.
  - rewrite lookup_insert_eq. destruct (decide (Comment.reportId c = k)) as [<-|Hne].
    + by rewrite lookup_insert_eq, Hm.
    + by rewrite !lookup_insert_ne.
Qed.

Lemma foldl_push_comment_lookup (cs : list Comment.t)
    (m : gmap Z (list Comment.t)) (k : Z) :
  foldl push_comment m cs !! k =
  match filter (fun c => Comment.reportId c = k) cs with
  | [] => m !! k
  | g => Some (default [] (m !! k) ++ g)
  end.
Proof.
  revert m. induction cs as [|c cs IH]; intros m; [done|].
  cbn [foldl]. rewrite IH, push_comment_lookup_key, filter_cons.
  destruct (decide (Comment.reportId c = k)) as [Hk|Hk]; [|done].
  destruct (filter (fun c0 => Comment.reportId c0 = k) cs) as [|c' g];
    [done|].
  simpl. by rewrite <- app_assoc.
Qed.

(** X6. Grouping the comment rows by [reportId] loses nothing and invents
    nothing: the entry of an id is the sequence of the rows that carry it, in
    the order they came, and an id that no row carries has no entry (never
    an empty sequence). *)
Theorem commentsByReportId_groups (cs : list Comment.t) (k : Z) :
  foldl push_comment (∅ : gmap Z (list Comment.t)) cs !! k =
  match filter (fun c => Comment.reportId c = k) cs with
  | [] => None
  | g => Some g
  end.
Proof.
  rewrite foldl_push_comment_lookup, lookup_empty.
  by destruct (filter (fun c => Comment.reportId c = k) cs).
Qed.


Lemma find_report_filed (t now : Z) (s : Store)
    (title location description password : string) :
  well_kept t s ->
  find_report (reports_id_seq s)
              (filed now title location description password s)
  = Some (new_report now title location description password s).
Proof.
  intros (_ & Hseq & _). unfold find_report, filed, matching. cbn [reports].
  rewrite filter_app, filter_none.
  - rewrite filter_cons_True by done. done.
  - intros r Hr Hid. rewrite Forall_forall in Hseq.
    specialize (Hseq r Hr). simpl in Hseq. lia.
Qed.

(** X8. A report that was filed can be found and is guarded by its
    password: in any history of calls, [_getReport] on the id that
    [createReport] returned gives the row with the four fields and the
    password that were filed, and a close with any other password is
    refused as incorrect. *)
Theorem createReport_then_getReport (t now now' : Z) (s : Store)
    (title location description password : string) :
  reachable t s ->
  exists (obj : ReportObject.t) (row : Report.t),
    result (run pg now (createReport title location description password) s)
    = inr obj
    /\ result (run pg now' (_getReport (ReportObject.id obj))
                 (store (run pg now
                    (createReport title location description password) s)))
       = inr (Some row)
    /\ Report.id row = ReportObject.id obj
    /\ Report.title row = title
    /\ Report.location row = location
    /\ Report.description row = description
    /\ Report.password row = password
    /\ (forall guess,
          guess ≠ password ->
          result (run pg now' (closeReport (ReportObject.id obj) guess)
                    (store (run pg now
                       (createReport title location description password) s)))
          = inl (JsError "Password incorrect for this report, please try again")).
Proof.
  intros Hreach%reachable_well_kept.
  exists (ReportObject.delete_password
            (ReportObject.of_row
               (new_report now title location description password s))),
         (new_report now title location description password s).
  rewrite run_pg_createReport.
  pose proof (find_report_filed t now s title location description password
                Hreach) as Hfind.
  split; [by rewrite run_createReport|].
  split; [by rewrite run_pg__getReport; cbn [result]; rewrite <- Hfind|].
  repeat split.
  intros guess Hguess.
  change (ReportObject.id _) with (reports_id_seq s).
  by rewrite (closeReport_password_incorrect now' _ _ guess _ Hfind).
Qed.

Lemma createReport_then_getReport_witness :
  exists obj row,
    result (run pg 3000 (createReport "Noise" "Main St" "Loud hum" "p2")
                commented_store) = inr obj
    /\ result (run pg 3500 (_getReport (ReportObject.id obj)) board_store)
       = inr (Some row)
    /\ Report.password row = "p2".
Proof.
  destruct (createReport_then_getReport 2000 3000 3500 commented_store
              "Noise" "Main St" "Loud hum" "p2")
    as (obj & row & Hobj & Hrow & _ & _ & _ & _ & Hpw & _).
  - exact (reachable_call 1000 2000 (CreateReportComment 1 "confirmed")
             leak_store reachable_leak_store ltac:(lia)).
  - exists obj, row. repeat split; assumption.
Defined.

(** X9. [_getReport] looks a report up by id and changes nothing: it sends
    one SELECT and leaves the store as it was; it returns nothing exactly
    when no row has the id, a row it returns is a row of the table with that
    id, and where ids are unique every row is returned for its own id. *)
Theorem _getReport_finds (now : Z) (s : Store) (reportId : Z) :
  store (run pg now (_getReport reportId) s) = s
  /\ trace (run pg now (_getReport reportId) s) = [SelectReportById reportId]
  /\ (result (run pg now (_getReport reportId) s) = inr None
      <-> forall r, r ∈ reports s -> Report.id r ≠ reportId)
  /\ (forall r,
        result (run pg now (_getReport reportId) s) = inr (Some r) ->
        r ∈ reports s /\ Report.id r = reportId)
  /\ (unique_ids s ->
      forall r, r ∈ reports s ->
        result (run pg now (_getReport (Report.id r)) s) = inr (Some r)).
Proof.
  rewrite !run_pg__getReport. cbn [result store trace].
  split; [done|]. split; [done|]. split; [|split].
  - unfold find_report, matching. split.
    + intros Hnone r Hr Hid.
      assert (r ∈ filter (fun r0 => Report.id r0 = reportId) (reports s))
        as Hin by by apply list_elem_of_filter.
      destruct (filter _ (reports s)); [by apply elem_of_nil in Hin|].
      by simplify_eq/=.
    + intros Hnone. by rewrite filter_none.
  - intros r Hr. assert (find_report reportId s = Some r) as Hfind
      by congruence.
    split; [|by eapply find_report_id].
    apply head_Some_elem_of in Hfind.
    by apply list_elem_of_filter in Hfind as [_ ?].
  - intros Huniq r Hr. rewrite run_pg__getReport. cbn [result].
    unfold find_report. by rewrite matching_unique.
Qed.

Lemma _getReport_finds_witness :
  result (run pg 5000 (_getReport 2) board_store)
  = inr (Some (Report.mk 2 "Noise" "Main St" "Loud hum" "p2" true (3000 + one_day))).
Proof.
  refine (proj2 (proj2 (proj2 (proj2 (_getReport_finds 5000 board_store 2))))
            _ (Report.mk 2 "Noise" "Main St" "Loud hum" "p2" true (3000 + one_day)) _).
  - apply (bool_decide_unpack _). by vm_compute.
  - vm_compute. repeat constructor.
Defined.

(** X10. An accepted comment keeps the discussion open for one more day,
    to the second: after a comment accepted at [now], the next comment on
    the report is accepted exactly when it comes no later than [now] + 1 day
    with the milliseconds dropped.  So it is accepted up to a second before
    [now] + 1 day, and refused as expired after [now] + 1 day. *)
Theorem createReportComment_extends_window (now now' : Z) (s : Store)
    (reportId : Z) (content content' : string) (report : Report.t) :
  find_report reportId s = Some report ->
  Report.isOpen report = true ->
  now <= Date_parse (Report.expirationDate report) ->
  let s' := store (run pg now (createReportComment reportId content) s) in
  (now' <= Date_parse (now + one_day) ->
   result (run pg now' (createReportComment reportId content') s')
   = inr (Some (new_comment now' reportId content' s')))
  /\ (Date_parse (now + one_day) < now' ->
      run pg now' (createReportComment reportId content') s'
      = refused
          "The discussion time on this report has expired, no comment has been made"
          reportId s')
  /\ (now' <= now + one_day - 1000 ->
      result (run pg now' (createReportComment reportId content') s')
      = inr (Some (new_comment now' reportId content' s')))
  /\ (now + one_day < now' ->
      run pg now' (createReportComment reportId content') s'
      = refused
          "The discussion time on this report has expired, no comment has been made"
          reportId s').
Proof.
  intros Hfind Hopen Hnow s'. subst s'.
  rewrite (run_pg_createReportComment now), Hfind, Hopen.
  rewrite bool_decide_eq_false_2 by lia. cbn [store].
  rewrite !run_pg_createReportComment, find_report_commented, Hfind.
  cbn [fmap option_fmap option_map Report.expire_at Report.isOpen
       Report.expirationDate].
  rewrite Hopen.
  pose proof (Date_parse_le (now + one_day)).
  pose proof (Date_parse_gt (now + one_day)).
  repeat split; intros Hlate.
  - by rewrite bool_decide_eq_false_2 by lia.
  - by rewrite bool_decide_eq_true_2 by lia.
  - by rewrite bool_decide_eq_false_2 by lia.
  - by rewrite bool_decide_eq_true_2 by lia.
Qed.

Lemma createReportComment_extends_window_witness :
  run pg 86402400 (createReportComment 1 "late")
      (store (run pg 2500 (createReportComment 1 "confirmed") subsecond_store))
  = refused
      "The discussion time on this report has expired, no comment has been made"
      1 (store (run pg 2500 (createReportComment 1 "confirmed") subsecond_store)).
Proof.
  refine (proj1 (proj2 (createReportComment_extends_window 2500 86402400
            subsecond_store 1 "confirmed" "late"
            (Report.mk 1 "Leak" "5th Ave" "Gas smell" "p1" true 86401500)
            _ _ _)) _).
  - reflexivity.
  - reflexivity.
  - vm_compute. discriminate.
  - vm_compute. reflexivity.
Defined.

(** X11. A closed report takes no more comments: after a close that
    succeeded, every comment on that report is refused as closed, at any
    time, and writes nothing. *)
Theorem closeReport_then_comment (now now' : Z) (s : Store) (reportId : Z)
    (password content : string) (report : Report.t) :
  find_report reportId s = Some report ->
  Report.password report = password ->
  Report.isOpen report = true ->
  let s' := store (run pg now (closeReport reportId password) s) in
  run pg now' (createReportComment reportId content) s'
  = refused "That report has been closed, no comment has been made"
            reportId s'.
Proof.
  intros Hfind Hpw Hopen s'. subst s'.
  rewrite (closeReport_closes now s reportId password report) by done.
  cbn [store]. fold (closed reportId s).
  by rewrite run_pg_createReportComment, find_report_closed, Hfind.
Qed.

Lemma closeReport_then_comment_witness :
  result (run pg 4000 (createReportComment 1 "late")
              (store (run pg 3000 (closeReport 1 "p1") commented_store)))
  = inl (JsError "That report has been closed, no comment has been made").
Proof.
  rewrite (closeReport_then_comment 3000 4000 commented_store 1 "p1" "late"
             (Report.mk 1 "Leak" "5th Ave" "Gas smell" "p1" true (2000 + one_day))
             eq_refl eq_refl eq_refl).
  reflexivity.
Defined.

(** The open rows after an update by id, when the update keeps [isOpen] or
    clears it. *)
Lemma elem_of_update_where (f : Report.t -> Report.t) (reportId : Z)
    (rs : list Report.t) (r : Report.t) :
  r ∈ update_where reportId f rs ->
  exists r0, r0 ∈ rs
    /\ r = if bool_decide (Report.id r0 = reportId) then f r0 else r0.
Proof.
  unfold update_where. intros (r0 & -> & Hr0)%list_elem_of_fmap. eauto.
Qed.

(** X12. A closed report leaves the listing: after a close that succeeded,
    no object that [getOpenReports] returns has the id of the closed
    report. *)
Theorem closeReport_then_listing (now now' : Z) (s : Store) (reportId : Z)
    (password : string) (report : Report.t) (objs : list ReportObject.t) :
  find_report reportId s = Some report ->
  Report.password report = password ->
  Report.isOpen report = true ->
  result (run pg now' getOpenReports
              (store (run pg now (closeReport reportId password) s)))
  = inr objs ->
  forall obj, obj ∈ objs -> ReportObject.id obj ≠ reportId.
Proof.
  intros Hfind Hpw Hopen.
  rewrite (closeReport_closes now s reportId password report) by done.
  cbn [store]. fold (closed reportId s). intros Hobjs.
  destruct (decide (open_reports (closed reportId s) = [])) as [Hnone|Hsome].
  { by rewrite getOpenReports_none_open in Hobjs. }
  rewrite getOpenReports_some_open in Hobjs by done.
  cbn [result] in Hobjs. injection Hobjs as <-.
  intros obj (r & -> & Hr)%list_elem_of_fmap. cbn [listed ReportObject.id].
  apply list_elem_of_filter in Hr as [Hisopen Hr].
  apply elem_of_update_where in Hr as (r0 & Hr0 & ->).
  case_bool_decide as Hid; [done|done].
Qed.

Lemma closeReport_then_listing_witness :
  Forall (fun obj => ReportObject.id obj ≠ 1)
         (listed 5000 (closed 1 board_store)
            <$> open_reports (closed 1 board_store)).
Proof.
  apply Forall_forall.
  apply (closeReport_then_listing 4000 5000 board_store 1 "p1"
           (Report.mk 1 "Leak" "5th Ave" "Gas smell" "p1" true (2000 + one_day))).
  - reflexivity.
  - reflexivity.
  - reflexivity.
  - vm_compute. reflexivity.
Defined.

(** X13. A comment that passes the checks shows in the listing: after it,
    [getOpenReports] returns, the report is listed, and every listed object
    with that id carries the comments it had before followed by the new one,
    and the new expiration date. *)
Theorem createReportComment_then_listing (now now' : Z) (s : Store)
    (reportId : Z) (content : string) (report : Report.t) :
  find_report reportId s = Some report ->
  Report.isOpen report = true ->
  now <= Date_parse (Report.expirationDate report) ->
  exists objs,
    result (run pg now' getOpenReports
                (store (run pg now (createReportComment reportId content) s)))
    = inr objs
    /\ (exists obj, obj ∈ objs /\ ReportObject.id obj = reportId)
    /\ (forall obj,
          obj ∈ objs -> ReportObject.id obj = reportId ->
          ReportObject.comments obj
          = Some (filter (fun c => Comment.reportId c = reportId) (comments s)
                  ++ [new_comment now reportId content s])
          /\ ReportObject.expirationDate obj = now + one_day).
Proof.
  intros Hfind Hopen Hnow.
  rewrite run_pg_createReportComment, Hfind, Hopen.
  rewrite bool_decide_eq_false_2 by lia. cbn [store].
  pose proof (find_report_commented now reportId content s) as Hfind'.
  rewrite Hfind in Hfind'. cbn [fmap option_fmap option_map] in Hfind'.
  assert (Report.expire_at (now + one_day) report
          ∈ open_reports (commented now reportId content s)) as Hlisted.
  { apply list_elem_of_filter. split; [done|].
    apply head_Some_elem_of in Hfind'.
    by apply list_elem_of_filter in Hfind' as [_ ?]. }
  rewrite getOpenReports_some_open
    by (intros Hnil; rewrite Hnil in Hlisted; by apply elem_of_nil in Hlisted).
  eexists. split; [done|]. split.
  - exists (listed now' (commented now reportId content s)
                   (Report.expire_at (now + one_day) report)).
    split; [by apply list_elem_of_fmap_2|].
    cbn [listed ReportObject.id Report.expire_at Report.id].
    by eapply find_report_id.
  - intros obj (r & -> & Hr)%list_elem_of_fmap.
    cbn [listed ReportObject.id ReportObject.comments
         ReportObject.expirationDate].
    intros Hid. split.
    + f_equal. rewrite Hid. cbn [commented with_reports comments].
      rewrite filter_app, filter_cons_True by done. done.
    + apply list_elem_of_filter in Hr as [_ Hr]. cbn [commented with_reports reports] in Hr.
      apply elem_of_update_where in Hr as (r0 & _ & ->).
      case_bool_decide as Hid0; [done|].
      by destruct Hid0.
Qed.

Lemma createReportComment_then_listing_witness :
  exists objs,
    result (run pg 2500 getOpenReports commented_store) = inr objs
    /\ (forall obj, obj ∈ objs -> ReportObject.id obj = 1 ->
          ReportObject.comments obj = Some [Comment.mk 1 1 "confirmed" 2000]).
Proof.
  destruct (createReportComment_then_listing 2000 2500 leak_store 1 "confirmed"
              (Report.mk 1 "Leak" "5th Ave" "Gas smell" "p1" true 86401000))
    as (objs & Hobjs & _ & Hall).
  - reflexivity.
  - reflexivity.
  - vm_compute. discriminate.
  - exists objs. split; [exact Hobjs|].
    intros obj Hobj Hid. exact (proj1 (Hall obj Hobj Hid)).
Defined.

(** X14. The listing does not leave expired reports out: an open report
    whose expiration date has passed is still returned by [getOpenReports],
    with [isExpired] true. *)
Theorem getOpenReports_lists_expired (now : Z) (s : Store) (r : Report.t) :
  r ∈ reports s ->
  Report.isOpen r = true ->
  Report.expirationDate r < now ->
  exists objs obj,
    result (run pg now getOpenReports s) = inr objs
    /\ obj ∈ objs
    /\ ReportObject.id obj = Report.id r
    /\ ReportObject.isOpen obj = true
    /\ ReportObject.isExpired obj = Some true.
Proof.
  intros Hr Hopen Hexp.
  assert (r ∈ open_reports s) as Hlisted by by apply list_elem_of_filter.
  rewrite getOpenReports_some_open
    by (intros Hnil; rewrite Hnil in Hlisted; by apply elem_of_nil in Hlisted).
  exists (listed now s <$> open_reports s), (listed now s r).
  split; [done|]. split; [by apply list_elem_of_fmap_2|].
  cbn [listed ReportObject.id ReportObject.isOpen ReportObject.isExpired].
  rewrite bool_decide_eq_true_2; [done|].
  pose proof (Date_parse_le (Report.expirationDate r)). lia.
Qed.

Lemma getOpenReports_lists_expired_witness :
  exists objs obj,
    result (run pg (1000 + one_day + 1) getOpenReports leak_store) = inr objs
    /\ obj ∈ objs
    /\ ReportObject.id obj = 1
    /\ ReportObject.isOpen obj = true
    /\ ReportObject.isExpired obj = Some true.
Proof.
  apply (getOpenReports_lists_expired (1000 + one_day + 1) leak_store
           (Report.mk 1 "Leak" "5th Ave" "Gas smell" "p1" true 86401000)).
  - vm_compute. repeat constructor.
  - reflexivity.
  - reflexivity.
Defined.

(** X15. [closeReport] never looks at the clock: on an engine whose lookup
    and whose close do not depend on the instant, a call has the same
    outcome at any two instants, so a report whose expiration date has
    passed is closed like any other. *)
Theorem closeReport_ignores_time (e : Engine) (now now' : Z) (s : Store)
    (reportId : Z) (password : string) :
  (forall s0, exec e (SelectReportById reportId) now s0
              = exec e (SelectReportById reportId) now' s0) ->
  (forall s0, exec e (UpdateIsOpenFalse reportId) now s0
              = exec e (UpdateIsOpenFalse reportId) now' s0) ->
  run e now (closeReport reportId password) s
  = run e now' (closeReport reportId password) s.
Proof.
  intros Hselect Hupdate. rewrite !run_closeReport, Hselect.
  destruct (exec e (SelectReportById reportId) now' s) as [[err|found] s1];
    [done|].
  by rewrite Hupdate.
Qed.

Lemma closeReport_ignores_time_witness :
  run pg (1000 + one_day + 1) (closeReport 1 "p1") leak_store
  = run pg 0 (closeReport 1 "p1") leak_store.
Proof.
  apply closeReport_ignores_time; intros s0; reflexivity.
Defined.

Lemma Forall2_update_where (f : Report.t -> Report.t) (reportId : Z)
    (rs : list Report.t) :
  Forall2 (fun r r' => r' = r \/ (Report.id r = reportId /\ r' = f r))
          rs (update_where reportId f rs).
Proof.
  unfold update_where. induction rs as [|r rs IH]; [constructor|].
  rewrite fmap_cons. constructor; [|done].
  case_bool_decide; auto.
Qed.

Lemma Forall2_unchanged (f : Report.t -> Report.t) (reportId : Z)
    (rs : list Report.t) :
  Forall2 (fun r r' => r' = r \/ (Report.id r = reportId /\ r' = f r)) rs rs.
Proof. apply Forall_Forall2_diag, Forall_forall. auto. Qed.

(** X16. Whatever its outcome, [closeReport] touches nothing but the
    [isOpen] of the rows with the id it was given: no row is added or
    removed, every other row and every other field stay as they were, and
    the comments are untouched. *)
Theorem closeReport_frame (now : Z) (s : Store) (reportId : Z)
    (password : string) :
  let s' := store (run pg now (closeReport reportId password) s) in
  comments s' = comments s
  /\ reports_id_seq s' = reports_id_seq s
  /\ comments_id_seq s' = comments_id_seq s
  /\ Forall2 (fun r r' =>
                r' = r \/ (Report.id r = reportId /\ r' = Report.close r))
             (reports s) (reports s').
Proof.
  intros s'. subst s'. rewrite run_pg_closeReport.
  destruct (find_report reportId s) as [report|];
    [|by repeat split; try apply Forall2_unchanged].
  case_bool_decide; [|by repeat split; try apply Forall2_unchanged].
  destruct (Report.isOpen report);
    [|by repeat split; try apply Forall2_unchanged].
  cbn [store with_reports comments reports reports_id_seq comments_id_seq].
  repeat split. apply Forall2_update_where.
Qed.

(** X17. Whatever its outcome, [createReportComment] changes no report but
    in the expiration date of the rows with the id it was given (so it never
    closes or reopens one) and it adds at most the one comment row it
    returns; the comments that were there stay as they were. *)
Theorem createReportComment_frame (now : Z) (s : Store) (reportId : Z)
    (content : string) :
  let s' := store (run pg now (createReportComment reportId content) s) in
  Forall2 (fun r r' =>
             r' = r
             \/ (Report.id r = reportId
                 /\ r' = Report.expire_at (now + one_day) r))
          (reports s) (reports s')
  /\ reports_id_seq s' = reports_id_seq s
  /\ (comments s' = comments s
      \/ (comments s' = comments s ++ [new_comment now reportId content s]
          /\ result (run pg now (createReportComment reportId content) s)
             = inr (Some (new_comment now reportId content s)))).
Proof.
  intros s'. subst s'. rewrite run_pg_createReportComment.
  destruct (find_report reportId s) as [report|];
    [|by repeat split; [apply Forall2_unchanged|left]].
  destruct (Report.isOpen report);
    [|by repeat split; [apply Forall2_unchanged|left]].
  case_bool_decide; [by repeat split; [apply Forall2_unchanged|left]|].
  cbn [store result commented with_reports comments reports reports_id_seq].
  split; [apply Forall2_update_where|]. split; [done|]. by right.
Qed.

(** X18. Nothing is ever deleted or rewritten: whatever the call, every
    report row stays in its place with its id, title, location, description
    and password, every comment row stays in its place unchanged, and each
    table grows by at most one row. *)
Theorem tables_only_grow (t : Z) (c : Call) (s : Store) :
  (forall i r,
     reports s !! i = Some r ->
     exists r', reports (after t c s) !! i = Some r' /\ same_identity r r')
  /\ (forall i c0,
        comments s !! i = Some c0 -> comments (after t c s) !! i = Some c0)
  /\ (length (reports s) <= length (reports (after t c s))
      <= S (length (reports s)))%nat
  /\ (length (comments s) <= length (comments (after t c s))
      <= S (length (comments s)))%nat.
Proof.
  destruct (after_transition t c s)
    as [c|title location description password
        |reportId password report _ _ _
        |reportId content report _ _ _].
  - repeat split; eauto with lia. intros i r Hr. exists r. by repeat split.
  - cbn [filed reports comments]. repeat split; eauto with lia.
    + intros i r Hr. exists r.
      rewrite lookup_app_l by by eapply lookup_lt_Some. by repeat split.
    + rewrite length_app. simpl. lia.
    + rewrite length_app. simpl. lia.
  - cbn [closed with_reports reports comments]. unfold update_where.
    rewrite length_fmap. repeat split; eauto with lia.
    intros i r Hr. rewrite list_lookup_fmap, Hr. simpl.
    eexists. split; [done|]. by case_bool_decide.
  - cbn [commented with_reports reports comments]. unfold update_where.
    rewrite length_fmap, length_app. simpl. repeat split; eauto with lia.
    + intros i r Hr. rewrite list_lookup_fmap, Hr. simpl.
      eexists. split; [done|]. by case_bool_decide.
    + intros i c0 Hc0. by rewrite lookup_app_l by by eapply lookup_lt_Some.
Qed.

Lemma tables_only_grow_witness :
  exists r',
    reports (after 3000 (CloseReport 1 "p1") leak_store) !! 0%nat = Some r'
    /\ Report.password r' = "p1".
Proof.
  destruct (proj1 (tables_only_grow 3000 (CloseReport 1 "p1") leak_store) 0%nat
              (Report.mk 1 "Leak" "5th Ave" "Gas smell" "p1" true 86401000)
              eq_refl)
    as (r' & Hr' & _ & _ & _ & _ & Hpw).
  exists r'. split; [exact Hr'|exact Hpw].
Defined.




